(** * The node controllers of the bare-metal API (ironic/api/controllers/v1/node.py)

    A shallow embedding of the request handlers that front the provisioning
    state machine: [NodeStatesController.get] and [.provision],
    [NodeVendorPassthruController.methods], and [NodesController.post],
    [.patch] and [.delete], together with the helpers they call.

    Python objects are finite maps from attribute names to JSON-like values,
    handlers are computations in a state-and-exception monad over the part of
    the world the API process can touch (the node table, the RPC calls it has
    sent out, the module-level vendor-method cache and the Location header),
    and everything the handlers import from modules that are not part of the
    sources at hand is a field of the environment class [Env]. *)

From stdpp Require Import gmap strings list fin_maps.

Set Warnings "-register-all".
#[local] Open Scope string_scope.

(** ** Values *)

(** What a node attribute, a request argument or an RPC reply can hold.
    Numbers are integers; booleans and numbers are kept apart. *)
Inductive json :=
  | JNull
  | JBool (b : bool)
  | JNum (n : Z)
  | JStr (s : string)
  | JList (l : list json)
  | JDict (m : gmap string json).

#[global] Instance json_eq_dec : EqDecision json.
Proof.
  refine (fix go (x y : json) {struct x} : Decision (x = y) :=
    let _ : EqDecision json := go in
    match x, y with
    | JNull, JNull => left _
    | JBool a, JBool b => cast_if (decide (a = b))
    | JNum a, JNum b => cast_if (decide (a = b))
    | JStr a, JStr b => cast_if (decide (a = b))
    | JList a, JList b => cast_if (decide (a = b))
    | JDict a, JDict b => cast_if (decide (a = b))
    | _, _ => right _
    end); abstract congruence.
Defined.

#[global] Instance json_inhabited : Inhabited json := populate JNull.

(** An object: attribute name to value.  An attribute that is missing from the
    map is [wtypes.Unset] on an API object. *)
Abbreviation obj := (gmap string json).

(** Python truth value of a value, as tested by [if x:] and [not x]. *)
Definition truthy (v : json) : bool :=
  match v with
  | JNull => false
  | JBool b => b
  | JNum n => negb (n =? 0)%Z
  | JStr s => negb (String.eqb s "")
  | JList l => match l with [] => false | _ :: _ => true end
  | JDict m => negb (bool_decide (m = ∅))
  end.

(** Truth value of an attribute that may be [Unset]; [Unset] is false. *)
Definition truthy_attr (o : option json) : bool :=
  match o with Some v => truthy v | None => false end.

(** Reading a column of a node object that came from the table.  Such an
    object carries every column; a column the map does not list reads as
    [None]. *)
Definition column (o : obj) (k : string) : json := default JNull (o !! k).

(** A column that holds text, as text. *)
Definition text_of (v : json) : string :=
  match v with JStr s => s | _ => "" end.

(** [template % args], kept symbolic: the template followed by its arguments. *)
Definition pct (template : string) (args : list json) : json :=
  JList (JStr template :: args).

(** ** Exceptions *)

Module http_client.
Definition BAD_REQUEST : nat := 400.
Definition FORBIDDEN : nat := 403.
Definition NOT_FOUND : nat := 404.
Definition NOT_ACCEPTABLE : nat := 406.
Definition CONFLICT : nat := 409.
Definition INTERNAL_SERVER_ERROR : nat := 500.
End http_client.

(** The classes of [ironic.common.exception] the controllers raise or catch. *)
Inductive ironic_exc :=
  | HTTPForbidden
  | OperationNotPermitted
  | NotAcceptable
  | NodeInMaintenance
  | NodeLocked
  | NodeNotFound
  | InvalidStateRequested
  | InvalidParameterValue
  | NoValidHost
  | ChassisNotFound
  | PatchError
  | NodeAlreadyExists
  | DuplicateName
  | OtherIronicException (name : string).

#[global] Instance ironic_exc_eq_dec : EqDecision ironic_exc.
Proof. solve_decision. Defined.

(** The HTTP status a class carries unless a handler overwrites [e.code]; the
    values are the ones the docstrings and comments of the controllers give. *)
Definition default_code (c : ironic_exc) : nat :=
  match c with
  | HTTPForbidden | OperationNotPermitted => http_client.FORBIDDEN
  | NotAcceptable => http_client.NOT_ACCEPTABLE
  | NodeInMaintenance | InvalidStateRequested | InvalidParameterValue
  | PatchError => http_client.BAD_REQUEST
  | NodeLocked | NodeAlreadyExists | DuplicateName => http_client.CONFLICT
  | NodeNotFound | NoValidHost | ChassisNotFound => http_client.NOT_FOUND
  | OtherIronicException _ => http_client.INTERNAL_SERVER_ERROR
  end.

Inductive exn :=
  | IronicException (cls : ironic_exc) (code : nat) (kwargs : list (string * json))
  | ClientSideError (msg : json) (status_code : nat)
  | JsonPatchException (reason : json).

#[global] Instance exn_eq_dec : EqDecision exn.
Proof. solve_decision. Defined.

(** [exception.Cls(k1=v1, ...)]. *)
Definition ironic (c : ironic_exc) (kwargs : list (string * json)) : exn :=
  IronicException c (default_code c) kwargs.

Definition exn_class (e : exn) : option ironic_exc :=
  match e with IronicException c _ _ => Some c | _ => None end.

(** The status the client sees. *)
Definition exn_code (e : exn) : nat :=
  match e with
  | IronicException _ code _ => code
  | ClientSideError _ status_code => status_code
  | JsonPatchException _ => http_client.INTERNAL_SERVER_ERROR
  end.

(** [e.code = code] *)
Definition set_code (code : nat) (e : exn) : exn :=
  match e with
  | IronicException c _ kw => IronicException c code kw
  | other => other
  end.

Inductive outcome (A : Type) :=
  | Return (a : A)
  | Raise (e : exn).
Arguments Return {A} a.
Arguments Raise {A} e.

Definition is_Return {A} (r : outcome A) : bool :=
  match r with Return _ => true | Raise _ => false end.

(** ** The conductor RPC interface, as far as the handlers call it *)

Inductive rpc_call :=
  | do_node_deploy (node_id : json) (rebuild : bool) (configdrive : json) (topic : string)
  | do_node_tear_down (node_id : json) (topic : string)
  | inspect_hardware (node_id : json) (topic : string)
  | do_node_clean (node_id : json) (clean_steps : json) (topic : string)
  | do_provisioning_action (node_id : json) (action : string) (topic : string)
  | get_node_vendor_passthru_methods (node_id : json) (topic : string)
  | update_node (node_obj : obj) (topic : string)
  | destroy_node (node_id : json) (topic : string).

#[global] Instance rpc_call_eq_dec : EqDecision rpc_call.
Proof. solve_decision. Defined.

(** ** The world of the API process *)

Record World := mkWorld {
  (** the persisted node table, keyed by node uuid *)
  db : gmap string obj;
  (** the RPC calls sent to conductors so far, oldest first *)
  rpc_log : list rpc_call;
  (** the module-level cache of vendor methods, keyed by driver name *)
  _VENDOR_METHODS : gmap string json;
  (** [pecan.response.location] *)
  location : option string
}.

Definition set_db (f : gmap string obj → gmap string obj) (w : World) : World :=
  mkWorld (f (db w)) (rpc_log w) (_VENDOR_METHODS w) (location w).
Definition log_rpc (c : rpc_call) (w : World) : World :=
  mkWorld (db w) (rpc_log w ++ [c]) (_VENDOR_METHODS w) (location w).
Definition set_vendor_methods (f : gmap string json → gmap string json) (w : World) : World :=
  mkWorld (db w) (rpc_log w) (f (_VENDOR_METHODS w)) (location w).
Definition set_location (l : string) (w : World) : World :=
  mkWorld (db w) (rpc_log w) (_VENDOR_METHODS w) (Some l).

(** ** Handlers as computations

    A handler runs from a world to an outcome and the world it leaves behind;
    what was done before an exception stays done. *)
Definition api (A : Type) : Type := World → outcome A * World.

#[global] Instance api_ret : MRet api := λ A a w, (Return a, w).
#[global] Instance api_bind : MBind api := λ A B f m w,
  match m w with
  | (Return a, w') => f a w'
  | (Raise e, w') => (Raise e, w')
  end.

Definition raise {A} (e : exn) : api A := λ w, (Raise e, w).
Definition gets {A} (f : World → A) : api A := λ w, (Return (f w), w).
Definition modify (f : World → World) : api unit := λ w, (Return tt, f w).
(** [if c: raise e] *)
Definition raise_if (c : bool) (e : exn) : api unit :=
  if c then raise e else mret tt.
(** [try: m  except cls as e: e.code = code; raise] *)
Definition recode {A} (cls : ironic_exc) (code : nat) (m : api A) : api A := λ w,
  match m w with
  | (Raise e, w') =>
      (Raise (if bool_decide (exn_class e = Some cls) then set_code code e else e), w')
  | ok => ok
  end.

(** ** JSON patches

    One operation of a PATCH document, as [JsonPatchType.validate] hands it to
    the handler: a dictionary with [path], [op] and, unless it was left out,
    [value]. *)
Record patch_op := mkPatchOp {
  op : string;
  path : string;
  value : option json
}.

#[global] Instance patch_op_eq_dec : EqDecision patch_op.
Proof. solve_decision. Defined.

(** ** The environment of a request

    The request context, the configuration, and every function or constant the
    controllers take from a module outside these sources. *)
Class Env := {
  (** [policy.authorize(rule, cdict, cdict)] lets the request through *)
  policy_authorize : string → bool;
  (** [pecan.request.version.minor] *)
  version_minor : nat;
  (** [pecan.request.context.show_password] *)
  show_password : bool;
  (** [pecan.request.public_url] *)
  public_url : string;
  (** [self.from_chassis] of the [NodesController] that serves the request *)
  from_chassis : bool;

  (** [api_utils.check_allow_management_verbs(verb)] does not raise *)
  management_verb_allowed : string → bool;
  (** the version gates of [api_utils] *)
  allow_raid_config : bool;
  allow_node_logical_names : bool;
  allow_resource_class : bool;
  allow_network_interface : bool;
  allow_links_node_states_and_driver_properties : bool;
  is_valid_network_interface : json → bool;
  enabled_network_interfaces : json;
  is_valid_node_name : json → bool;
  (** [api_utils.get_controller_reserved_names(NodesController)] *)
  controller_reserved_names : list string;
  (** [api_utils.initial_node_provision_state()] *)
  initial_node_provision_state : json;
  (** [types.JsonPatchType.internal_attrs()] *)
  JsonPatchType_internal_attrs : list string;
  (** [api_utils.get_patch_values(patch, path)] *)
  get_patch_values : list patch_op → string → list json;
  (** [api_utils.apply_jsonpatch(doc, patch)]; a failure of the JSON-patch
      library is reported as [JsonPatchException] *)
  apply_jsonpatch : obj → list patch_op → outcome obj;
  (** [api_utils.get_rpc_node(node_ident)] against the node table *)
  lookup_rpc_node : gmap string obj → string → outcome obj;

  (** [m = ir_states.machine.copy(); m.initialize(state);
      m.is_actionable_event(event)] *)
  is_actionable_event : json → string → bool;
  (** [ir_states.UPDATE_ALLOWED_STATES] *)
  UPDATE_ALLOWED_STATES : list json;
  (** [list(conductor_utils.CLEANING_INTERFACE_PRIORITY)] *)
  CLEANING_INTERFACE_PRIORITY : list string;

  (** [objects.Node.fields] *)
  objects_Node_fields : list string;
  (** [objects.Chassis.get(context, value)]: the chassis' uuid and id *)
  objects_Chassis_get : json → outcome (json * json);

  (** the hash ring behind [rpcapi.get_topic_for]: the topic of the conductor
      that owns a node of the given driver and uuid, if some conductor serves
      the driver *)
  hash_ring_owner : string → json → option string;
  (** what the conductor answers to a call *)
  conductor : rpc_call → outcome json;
  (** [uuidutils.generate_uuid()] *)
  generate_uuid : string;
  (** [link.build_url(resource, resource_args)] *)
  build_url : string → string → string;
  (** [link.Link.make_link(rel, url, resource, resource_args, bookmark)] *)
  make_link : string → string → string → string → bool → json;
  (** [strutils.mask_dict_password(d, secret)] *)
  mask_dict_password : json → string → json
}.

(** ** Constants of [ironic.common.states] and [versions] *)

Module ir_states.
Definition NOSTATE : json := JNull.
Definition AVAILABLE : string := "available".
Definition ACTIVE : string := "active".
Definition REBUILD : string := "rebuild".
Definition DELETED : string := "deleted".

(** Modelled from the spec: the module ironic.common.states is not among the
    sources.  The request boundary names the verbs manage, provide, deploy,
    rebuild, delete, inspect, clean, abort and adopt; the raw target tokens
    active and deleted stand for deploy and delete, every other key is its
    own verb. *)
Definition VERBS : gmap string string :=
  list_to_map
    [("active", "deploy"); ("deleted", "delete"); ("rebuild", "rebuild");
     ("manage", "manage"); ("provide", "provide"); ("inspect", "inspect");
     ("abort", "abort"); ("clean", "clean"); ("adopt", "adopt")].
End ir_states.

(** The minor versions at which features appeared, as their names say. *)
Module versions.
Definition MINOR_2_AVAILABLE_STATE : nat := 2.
Definition MINOR_3_DRIVER_INTERNAL_INFO : nat := 3.
Definition MINOR_6_INSPECT_STATE : nat := 6.
Definition MINOR_7_NODE_CLEAN : nat := 7.
Definition MINOR_12_RAID_CONFIG : nat := 12.
Definition MINOR_20_NETWORK_INTERFACE : nat := 20.
End versions.

(** ** Calls into the collaborators *)

(** [policy.authorize(rule, cdict, cdict)] *)
Definition authorize `{!Env} (rule : string) : api unit :=
  raise_if (negb (policy_authorize rule))
           (ironic HTTPForbidden [("resource", JStr rule)]).

(** [api_utils.get_rpc_node(node_ident)]: reads the table, writes nothing. *)
Definition get_rpc_node `{!Env} (node_ident : string) : api obj :=
  λ w, (lookup_rpc_node (db w) node_ident, w).

(** Modelled from the spec: [rpcapi.get_topic_for] is not among the sources.
    Ownership is resolved through the hash ring and fails with NoValidHost
    when no member serves the node's driver. *)
Definition get_topic_for `{!Env} (node : obj) : api string :=
  match hash_ring_owner (text_of (column node "driver")) (column node "uuid") with
  | Some topic => mret topic
  | None => raise (ironic NoValidHost [("reason", column node "driver")])
  end.

(** Sending a call to the conductor: the call is on the wire whatever the
    conductor answers. *)
Definition rpc `{!Env} (c : rpc_call) : api json :=
  λ w, (conductor c, log_rpc c w).

(** [api_utils.check_allow_management_verbs(verb)] *)
Definition check_allow_management_verbs `{!Env} (verb : string) : api unit :=
  raise_if (negb (management_verb_allowed verb)) (ironic NotAcceptable []).

(** ** JSON schemas, as far as [_CLEAN_STEPS_SCHEMA] uses them *)

Inductive json_type := TArray | TObject | TString.

Definition has_type (t : json_type) (j : json) : bool :=
  match t, j with
  | TArray, JList _ | TObject, JDict _ | TString, JStr _ => true
  | _, _ => false
  end.

(** A schema is the keywords it carries; a keyword that is left out puts no
    constraint ([additionalProperties] left out is [true]). *)
Inductive schema := Schema {
  s_type : option json_type;
  s_items : option schema;
  s_required : list string;
  s_properties : list (string * schema);
  s_enum : option (list json);
  s_minLength : option nat;
  s_additionalProperties : bool
}.

Definition any_schema : schema :=
  Schema None None [] [] None None true.

(** [jsonschema.validate(instance, schema)] does not raise.  [items] speaks
    about arrays only, [required], [properties] and [additionalProperties]
    about objects only, [minLength] about strings only. *)
Fixpoint valid (s : schema) (j : json) {struct s} : bool :=
  let 'Schema type_ items required properties enum minLength additional := s in
  match type_ with Some t => has_type t j | None => true end
  && match enum with Some vs => bool_decide (j ∈ vs) | None => true end
  && match j with
     | JList l =>
         match items with Some si => forallb (valid si) l | None => true end
     | JDict m =>
         forallb (λ k, bool_decide (is_Some (m !! k))) required
         && (fix props (ps : list (string * schema)) : bool :=
               match ps with
               | [] => true
               | (k, sk) :: ps' =>
                   match m !! k with Some v => valid sk v | None => true end
                   && props ps'
               end) properties
         && (additional
             || bool_decide (∀ k, k ∈ dom m → k ∈ properties.*1))
     | JStr str =>
         match minLength with
         | Some n => bool_decide (n ≤ String.length str)%nat
         | None => true
         end
     | _ => true
     end.

Definition _CLEAN_STEPS_SCHEMA `{!Env} : schema :=
  Schema (Some TArray)
    (Some (Schema (Some TObject) None
       ["interface"; "step"]
       [("interface",
          Schema None None [] [] (Some (JStr <$> CLEANING_INTERFACE_PRIORITY))
                 None true);
        ("step", Schema (Some TString) None [] [] None (Some 1) true);
        ("args", Schema (Some TObject) None [] [] None None true)]
       None None false))
    [] [] None None true.

(** States where calling do_provisioning_action makes sense *)
Definition PROVISION_ACTION_STATES : list string :=
  [ir_states.VERBS !!! "manage"; ir_states.VERBS !!! "provide";
   ir_states.VERBS !!! "abort"; ir_states.VERBS !!! "adopt"].

(** Change provision state names for API backwards compatibility: below
    version 1.2, AVAILABLE is shown as the old NOSTATE. *)
Definition update_state_in_older_versions `{!Env} (o : obj) : obj :=
  if bool_decide (version_minor < versions.MINOR_2_AVAILABLE_STATE)%nat
     && bool_decide (o !! "provision_state" = Some (JStr ir_states.AVAILABLE))
  then <["provision_state" := ir_states.NOSTATE]> o
  else o.

(** Ensure all necessary keys are present and correct in clean steps. *)
Definition _check_clean_steps `{!Env} (clean_steps : json) : api unit :=
  raise_if (negb (valid _CLEAN_STEPS_SCHEMA clean_steps))
    (ironic InvalidParameterValue
       [("message", pct "Invalid clean_steps: %s" [JStr "ValidationError"])]).

(** ** The rest of the conductor's interface

    The handlers for power, RAID, console, boot device and vendor calls hand
    the request to a method of [pecan.request.rpcapi], or to
    [api_utils.vendor_passthru]; none of them is among the sources.  Each is
    some computation over the world, of which nothing is assumed: it may
    answer, raise, and leave its trace. *)
Class ConductorAPI := {
  (** [rpcapi.change_node_power_state(context, node_id, new_state, topic)] *)
  change_node_power_state : json → string → string → api unit;
  (** [rpcapi.set_target_raid_config(context, node_id, target_raid_config, topic)] *)
  set_target_raid_config : json → json → string → api unit;
  (** [rpcapi.get_console_information(context, node_id, topic)] *)
  get_console_information : json → string → api json;
  (** [rpcapi.set_console_mode(context, node_id, enabled, topic)] *)
  set_console_mode : json → bool → string → api unit;
  (** [rpcapi.get_boot_device(context, node_id, topic)] *)
  get_boot_device : json → string → api json;
  (** [rpcapi.get_supported_boot_devices(context, node_id, topic)] *)
  get_supported_boot_devices : json → string → api json;
  (** [rpcapi.set_boot_device(context, node_id, device, persistent, topic)] *)
  set_boot_device : json → string → bool → string → api unit;
  (** [api_utils.vendor_passthru(ident, method, topic, data)] *)
  vendor_passthru : json → string → string → json → api json
}.

(** The constants of [ironic.common.states] that the power handler names;
    their values are not given by these sources. *)
Class PowerStates := {
  POWER_ON : string;
  POWER_OFF : string;
  REBOOT : string;
  CLEANWAIT : string;
  CLEANING : string
}.

(** Two classes of [ironic.common.exception] that handlers catch by name. *)
Definition NodeConsoleNotEnabled : ironic_exc :=
  OtherIronicException "NodeConsoleNotEnabled".
Definition UnsupportedDriverExtension : ironic_exc :=
  OtherIronicException "UnsupportedDriverExtension".

(** [try: m  except cls: handler] *)
Definition try_except {A} (m : api A) (cls : ironic_exc) (handler : api A) : api A := λ w,
  match m w with
  | (Raise e, w') =>
      if bool_decide (exn_class e = Some cls) then handler w' else (Raise e, w')
  | ok => ok
  end.

(** ** Boot device and console *)

Module BootDeviceController.

(** Get the current boot device or a list of supported devices. *)
Definition _get_boot_device `{!Env, !ConductorAPI} (node_ident : string)
    (supported : bool) : api json :=
  rpc_node ← get_rpc_node node_ident;
  topic ← get_topic_for rpc_node;
  if supported then get_supported_boot_devices (column rpc_node "uuid") topic
  else get_boot_device (column rpc_node "uuid") topic.

(** Set the boot device for a node. *)
Definition put `{!Env, !ConductorAPI} (node_ident boot_device : string)
    (persistent : bool) : api unit :=
  authorize "baremetal:node:set_boot_device";;
  rpc_node ← get_rpc_node node_ident;
  topic ← get_topic_for rpc_node;
  set_boot_device (column rpc_node "uuid") boot_device persistent topic.

(** Get the current boot device for a node. *)
Definition get `{!Env, !ConductorAPI} (node_ident : string) : api json :=
  authorize "baremetal:node:get_boot_device";;
  _get_boot_device node_ident false.

(** Get a list of the supported boot devices. *)
Definition supported `{!Env, !ConductorAPI} (node_ident : string) : api json :=
  authorize "baremetal:node:get_boot_device";;
  boot_devices ← _get_boot_device node_ident true;
  mret (JDict {[ "supported_boot_devices" := boot_devices ]}).

End BootDeviceController.

(** API representation of the console information for a node. *)
Definition ConsoleInfo (console_enabled : bool) (console_info : json) : obj :=
  {[ "console_enabled" := JBool console_enabled; "console_info" := console_info ]}.

Module NodeConsoleController.

(** Get connection information about the console. *)
Definition get `{!Env, !ConductorAPI} (node_ident : string) : api obj :=
  authorize "baremetal:node:get_console";;
  rpc_node ← get_rpc_node node_ident;
  topic ← get_topic_for rpc_node;
  '(console, console_state) ←
    try_except
      (console ← get_console_information (column rpc_node "uuid") topic;
       mret (console, true))
      NodeConsoleNotEnabled
      (mret (JNull, false));
  mret (ConsoleInfo console_state console).

(** Start and stop the node console. *)
Definition put `{!Env, !ConductorAPI} (node_ident : string) (enabled : bool) : api unit :=
  authorize "baremetal:node:set_console_state";;
  rpc_node ← get_rpc_node node_ident;
  topic ← get_topic_for rpc_node;
  set_console_mode (column rpc_node "uuid") enabled topic;;
  (* Set the HTTP Location Header *)
  modify (set_location
            (build_url "nodes" (node_ident ++ "/" ++ "states" ++ "/" ++ "console"))).

End NodeConsoleController.

(** ** API representation of the states of a node *)

Module NodeStates.
Definition convert `{!Env} (rpc_node : obj) : obj :=
  let attr_list :=
    (["console_enabled"; "last_error"; "power_state"; "provision_state";
      "target_power_state"; "target_provision_state"; "provision_updated_at"]
     ++ (if allow_raid_config then ["raid_config"; "target_raid_config"]
         else []))%list in
  let states :=
    foldl (λ (states : obj) attr, <[attr := column rpc_node attr]> states)
          ∅ attr_list in
  update_state_in_older_versions states.
End NodeStates.

Module NodeStatesController.

(** List the states of the node. *)
Definition get `{!Env} (node_ident : string) : api obj :=
  authorize "baremetal:node:get_states";;
  rpc_node ← get_rpc_node node_ident;
  mret (NodeStates.convert rpc_node).

(** Asynchronous trigger the provisioning of the node. *)
Definition provision `{!Env} (node_ident target : string)
    (configdrive clean_steps : json) : api unit :=
  authorize "baremetal:node:set_provision_state";;
  check_allow_management_verbs target;;
  rpc_node ← get_rpc_node node_ident;
  topic ← get_topic_for rpc_node;
  raise_if (bool_decide (target ∈ [ir_states.ACTIVE; ir_states.REBUILD])
            && truthy (column rpc_node "maintenance"))
    (ironic NodeInMaintenance
       [("op", JStr "provisioning"); ("node", column rpc_node "uuid")]);;
  (if negb (is_actionable_event (column rpc_node "provision_state")
              (default target (ir_states.VERBS !! target)))
   then
     raise_if (truthy (column rpc_node "reservation"))
       (ironic NodeLocked [("node", column rpc_node "uuid");
                           ("host", column rpc_node "reservation")]);;
     raise (ironic InvalidStateRequested
              [("action", JStr target); ("node", column rpc_node "uuid");
               ("state", column rpc_node "provision_state")])
   else mret tt);;
  raise_if (truthy configdrive && bool_decide (target ≠ ir_states.ACTIVE))
    (ClientSideError
       (pct "Adding a config drive is only supported when setting provision state to %s"
            [JStr ir_states.ACTIVE])
       http_client.BAD_REQUEST);;
  raise_if (truthy clean_steps
            && bool_decide (target ≠ ir_states.VERBS !!! "clean"))
    (ClientSideError
       (pct "'clean_steps' is only valid when setting target provision state to %s"
            [JStr (ir_states.VERBS !!! "clean")])
       http_client.BAD_REQUEST);;
  (if bool_decide (target = ir_states.ACTIVE) then
     rpc (do_node_deploy (column rpc_node "uuid") false configdrive topic);;
     mret tt
   else if bool_decide (target = ir_states.REBUILD) then
     rpc (do_node_deploy (column rpc_node "uuid") true JNull topic);;
     mret tt
   else if bool_decide (target = ir_states.DELETED) then
     rpc (do_node_tear_down (column rpc_node "uuid") topic);;
     mret tt
   else if bool_decide (target = ir_states.VERBS !!! "inspect") then
     rpc (inspect_hardware (column rpc_node "uuid") topic);;
     mret tt
   else if bool_decide (target = ir_states.VERBS !!! "clean") then
     raise_if (negb (truthy clean_steps))
       (ClientSideError
          (pct "'clean_steps' is required when setting target provision state to %s"
               [JStr (ir_states.VERBS !!! "clean")])
          http_client.BAD_REQUEST);;
     _check_clean_steps clean_steps;;
     rpc (do_node_clean (column rpc_node "uuid") clean_steps topic);;
     mret tt
   else if bool_decide (target ∈ PROVISION_ACTION_STATES) then
     rpc (do_provisioning_action (column rpc_node "uuid") target topic);;
     mret tt
   else
     raise (ironic InvalidStateRequested
              [("message",
                pct "The requested action '%(action)s' could not be understood."
                    [JStr target])]));;
  (* Set the HTTP Location Header *)
  modify (set_location (build_url "nodes" (node_ident ++ "/" ++ "states"))).

(** Set the target raid config of the node. *)
Definition raid `{!Env, !ConductorAPI} (node_ident : string) (target_raid_config : json)
    : api unit :=
  authorize "baremetal:node:set_raid_state";;
  raise_if (negb allow_raid_config) (ironic NotAcceptable []);;
  rpc_node ← get_rpc_node node_ident;
  topic ← get_topic_for rpc_node;
  (* Change error code as 404 seems appropriate because RAID is a standard
     interface and all drivers might not have it. *)
  recode UnsupportedDriverExtension http_client.NOT_FOUND
    (set_target_raid_config (column rpc_node "uuid") target_raid_config topic).

(** Set the power state of the node. *)
Definition power `{!Env, !ConductorAPI, !PowerStates} (node_ident target : string)
    : api unit :=
  authorize "baremetal:node:set_power_state";;
  rpc_node ← get_rpc_node node_ident;
  topic ← get_topic_for rpc_node;
  (if bool_decide (target ∉ [POWER_ON; POWER_OFF; REBOOT]) then
     raise (ironic InvalidStateRequested
              [("action", JStr target); ("node", JStr node_ident);
               ("state", column rpc_node "power_state")])
   (* Don't change power state for nodes being cleaned *)
   else if bool_decide (column rpc_node "provision_state"
                        ∈ [JStr CLEANWAIT; JStr CLEANING]) then
     raise (ironic InvalidStateRequested
              [("action", JStr target); ("node", JStr node_ident);
               ("state", column rpc_node "provision_state")])
   else mret tt);;
  change_node_power_state (column rpc_node "uuid") target topic;;
  (* Set the HTTP Location Header *)
  modify (set_location (build_url "nodes" (node_ident ++ "/" ++ "states"))).

End NodeStatesController.

(** ** Vendor passthru *)

Module NodeVendorPassthruController.

(** Retrieve information about vendor methods of the given node. *)
Definition methods `{!Env} (node_ident : string) : api json :=
  authorize "baremetal:node:vendor_passthru";;
  (* Raise an exception if node is not found *)
  rpc_node ← get_rpc_node node_ident;
  let driver := text_of (column rpc_node "driver") in
  cache ← gets _VENDOR_METHODS;
  (if bool_decide (driver ∉ dom cache) then
     topic ← get_topic_for rpc_node;
     ret ← rpc (get_node_vendor_passthru_methods (column rpc_node "uuid") topic);
     modify (set_vendor_methods <[driver := ret]>)
   else mret tt);;
  cache ← gets _VENDOR_METHODS;
  mret (cache !!! driver).

(** Call a vendor extension. *)
Definition _default `{!Env, !ConductorAPI} (node_ident method : string) (data : json)
    : api json :=
  (if bool_decide (method = "heartbeat")
   then authorize "baremetal:node:ipa_heartbeat"
   else authorize "baremetal:node:vendor_passthru");;
  (* Raise an exception if node is not found *)
  rpc_node ← get_rpc_node node_ident;
  topic ← get_topic_for rpc_node;
  vendor_passthru (column rpc_node "uuid") method topic data.

End NodeVendorPassthruController.

(** ** Maintenance *)

Module NodeMaintenanceController.

Definition _set_maintenance `{!Env} (node_ident : string) (maintenance_mode : bool)
    (reason : json) : api unit :=
  rpc_node ← get_rpc_node node_ident;
  let rpc_node := <["maintenance" := JBool maintenance_mode]> rpc_node in
  let rpc_node := <["maintenance_reason" := reason]> rpc_node in
  topic ← recode NoValidHost http_client.BAD_REQUEST (get_topic_for rpc_node);
  rpc (update_node rpc_node topic);;
  mret tt.

(** Put the node in maintenance mode; [reason] is [None] when left out. *)
Definition put `{!Env} (node_ident : string) (reason : json) : api unit :=
  authorize "baremetal:node:set_maintenance";;
  _set_maintenance node_ident true reason.

(** Remove the node from maintenance mode. *)
Definition delete `{!Env} (node_ident : string) : api unit :=
  authorize "baremetal:node:clear_maintenance";;
  _set_maintenance node_ident false JNull.

End NodeMaintenanceController.

(** ** Loops *)

(** [for x in l: body(x)] *)
Fixpoint for_each {A} (l : list A) (body : A → api unit) : api unit :=
  match l with
  | [] => mret tt
  | x :: l' => body x;; for_each l' body
  end.

(** [for x in l: acc = body(acc, x)] *)
Fixpoint fold_each {A S} (l : list A) (body : S → A → api S) (acc : S) : api S :=
  match l with
  | [] => mret acc
  | x :: l' => acc' ← body acc x; fold_each l' body acc'
  end.

(** ** API representation of a bare metal node *)

Module Node.

(** The attributes the class declares, [created_at] and [updated_at] being
    the two it inherits from [base.APIBase]. *)
Definition class_attrs : list string :=
  ["uuid"; "instance_uuid"; "name"; "power_state"; "target_power_state";
   "last_error"; "provision_state"; "reservation"; "provision_updated_at";
   "inspection_finished_at"; "inspection_started_at"; "maintenance";
   "maintenance_reason"; "target_provision_state"; "console_enabled";
   "instance_info"; "driver"; "driver_info"; "driver_internal_info";
   "clean_step"; "raid_config"; "target_raid_config"; "extra";
   "resource_class"; "properties"; "chassis_uuid"; "links"; "ports";
   "states"; "network_interface"; "created_at"; "updated_at"].

(** An instance: its attribute values, where a key that is missing is
    [Unset] (and [_chassis_uuid] backs the [chassis_uuid] property), and
    the list [self.fields]. *)
Record t := mk {
  attrs : obj;
  fields : list string
}.

Definition hasattr (self : t) (k : string) : bool :=
  bool_decide (k ∈ class_attrs) || bool_decide (is_Some (attrs self !! k)).

Definition getattr (self : t) (k : string) : option json :=
  if bool_decide (k = "chassis_uuid") then attrs self !! "_chassis_uuid"
  else attrs self !! k.

(** assignment to an attribute that is a plain value *)
Definition assign (self : t) (k : string) (v : option json) : t :=
  mk (match v with Some x => <[k := x]> (attrs self) | None => delete k (attrs self) end)
     (fields self).

Definition _set_chassis_uuid `{!Env} (self : t) (value : option json) : api t :=
  match value with
  | Some v =>
      if truthy v && bool_decide (attrs self !! "_chassis_uuid" ≠ Some v) then
        match objects_Chassis_get v with
        | Return (chassis_uuid, chassis_id) =>
            (* Create the chassis_id attribute on-the-fly to satisfy the
               api -> rpc object conversion. *)
            mret (assign (assign self "_chassis_uuid" (Some chassis_uuid))
                         "chassis_id" (Some chassis_id))
        | Raise e =>
            (* Change error code because 404 (NotFound) is inappropriate *)
            raise (if bool_decide (exn_class e = Some ChassisNotFound)
                   then set_code http_client.BAD_REQUEST e else e)
        end
      else mret self
  | None => mret (assign self "_chassis_uuid" None)
  end.

Definition setattr `{!Env} (self : t) (k : string) (v : option json) : api t :=
  if bool_decide (k = "chassis_uuid") then _set_chassis_uuid self v
  else mret (assign self k v).

Definition __init__ `{!Env} (kwargs : obj) : api t :=
  let fields := (objects_Node_fields ++ ["chassis_uuid"])%list in
  self ← fold_each fields
           (λ self k,
              (* Add fields we expose. *)
              if hasattr self k then
                setattr (mk (attrs self) (Node.fields self ++ [k])) k (kwargs !! k)
              else mret self)
           (mk ∅ []);
  setattr (mk (attrs self) (Node.fields self ++ ["chassis_id"]))
          "chassis_uuid" (kwargs !! "chassis_id").

(** [base.APIBase.as_dict]: the fields that are set. *)
Definition as_dict (self : t) : obj :=
  list_to_map (omap (λ k, (k,.) <$> getattr self k) (fields self)).

(** This method hides fields that were added in newer API versions. *)
Definition hide_fields_in_newer_versions `{!Env} (o : t) : t :=
  let unset_if (c : bool) (ks : list string) (o : t) : t :=
    if c then foldl (λ o k, assign o k None) o ks else o in
  let o := unset_if (bool_decide (version_minor < versions.MINOR_3_DRIVER_INTERNAL_INFO)%nat)
             ["driver_internal_info"] o in
  let o := unset_if (negb allow_node_logical_names) ["name"] o in
  let o := unset_if (bool_decide (version_minor < versions.MINOR_6_INSPECT_STATE)%nat)
             ["inspection_finished_at"; "inspection_started_at"] o in
  let o := unset_if (bool_decide (version_minor < versions.MINOR_7_NODE_CLEAN)%nat)
             ["clean_step"] o in
  let o := unset_if (bool_decide (version_minor < versions.MINOR_12_RAID_CONFIG)%nat)
             ["raid_config"; "target_raid_config"] o in
  let o := unset_if (bool_decide (version_minor < versions.MINOR_20_NETWORK_INTERFACE)%nat)
             ["network_interface"] o in
  unset_if (negb allow_resource_class) ["resource_class"] o.

(** [_convert_with_links] for [fields=None], the only way the handlers
    below call it. *)
Definition _convert_with_links `{!Env} (node : t) (url : string)
    (show_password show_states_links : bool) : t :=
  let node_uuid := text_of (default JNull (getattr node "uuid")) in
  let node :=
    assign node "ports"
      (Some (JList [make_link "self" url "nodes" (node_uuid ++ "/ports") false;
                    make_link "bookmark" url "nodes" (node_uuid ++ "/ports") true])) in
  let node :=
    if show_states_links then
      assign node "states"
        (Some (JList [make_link "self" url "nodes" (node_uuid ++ "/states") false;
                      make_link "bookmark" url "nodes" (node_uuid ++ "/states") true]))
    else node in
  let node :=
    match getattr node "driver_info" with
    | Some driver_info =>
        if negb show_password then
          assign node "driver_info" (Some (mask_dict_password driver_info "******"))
        else node
    | None => node
    end in
  (* The numeric ID should not be exposed to the user, it's internal only. *)
  let node := assign node "chassis_id" None in
  assign node "links"
    (Some (JList [make_link "self" url "nodes" node_uuid false;
                  make_link "bookmark" url "nodes" node_uuid true])).

Definition convert_with_links `{!Env} (rpc_node : obj) : api t :=
  node ← __init__ rpc_node;
  let node := mk (update_state_in_older_versions (attrs node)) (fields node) in
  let node := hide_fields_in_newer_versions node in
  mret (_convert_with_links node public_url show_password
          allow_links_node_states_and_driver_properties).

End Node.

(** ** Patch documents for nodes *)

(** [s.split(c)] *)
Fixpoint split (c : Ascii.ascii) (s : string) : list string :=
  match s with
  | EmptyString => [""]
  | String a s' =>
      if Ascii.eqb a c then "" :: split c s'
      else match split c s' with
           | h :: t => String a h :: t
           | [] => [String a ""]
           end
  end.

(** The attribute a path starts in: ['/' + path.split('/')[1]]. *)
Definition top_level (p : string) : string :=
  "/" ++ nth 1 (split (Ascii.ascii_of_nat 47 (* the slash *)) p) "".

Module NodePatchType.

Definition internal_attrs `{!Env} : list string :=
  let defaults := JsonPatchType_internal_attrs in
  (defaults ++ ["/console_enabled"; "/last_error";
                "/power_state"; "/provision_state"; "/reservation";
                "/target_power_state"; "/target_provision_state";
                "/provision_updated_at"; "/maintenance_reason";
                "/driver_internal_info"; "/inspection_finished_at";
                "/inspection_started_at"; "/clean_step";
                "/raid_config"; "/target_raid_config"])%list.

(** Modelled from the spec: [types.JsonPatchType.validate], which the
    [wsme.validate] decorator of [NodesController.patch] runs on every
    operation of the document, is not among the sources.  The attributes
    listed by [internal_attrs] are internal and read-only at the API
    boundary: an operation whose path starts in one of them is refused with
    a client-side error. *)
Definition validate `{!Env} (p : patch_op) : api patch_op :=
  raise_if (bool_decide (top_level (path p) ∈ internal_attrs))
    (ClientSideError
       (pct "'%s' is an internal attribute and can not be updated" [JStr (path p)])
       http_client.BAD_REQUEST);;
  mret p.

End NodePatchType.

(** ** The node table *)

(** Modelled from the spec: [objects.Node.create] is not among the sources.
    The persisted node table is a single table keyed by node id with a unique
    secondary key on the logical name; creating a node adds its row, and
    fails when the id or the name is taken. *)
Definition objects_Node_create (values : obj) : api obj := λ w,
  let uuid := text_of (column values "uuid") in
  if bool_decide (is_Some (db w !! uuid)) then
    (Raise (ironic NodeAlreadyExists [("uuid", column values "uuid")]), w)
  else if truthy (column values "name")
          && bool_decide (map_Exists (λ _ n, column n "name" = column values "name") (db w))
  then (Raise (ironic DuplicateName [("name", column values "name")]), w)
  else (Return values, set_db <[uuid := values]> w).

(** The node object an [update_node] reply carries. *)
Definition node_of_reply (reply : json) : obj :=
  match reply with JDict m => m | _ => ∅ end.

(** ** REST controller for Nodes *)

Module NodesController.

(** Checks all node 'name's are acceptable, it does not return a value. *)
Definition _check_names_acceptable `{!Env} (names : list json) (error_msg : string)
    : api unit :=
  raise_if (negb allow_node_logical_names) (ironic NotAcceptable []);;
  let reserved_names := controller_reserved_names in
  for_each names (λ name,
    raise_if (negb (is_valid_node_name name))
      (ClientSideError (pct error_msg [name]) http_client.BAD_REQUEST);;
    raise_if (bool_decide (name ∈ JStr <$> reserved_names))
      (ClientSideError
         (pct "The word '%(name)s' is reserved and can not be used as a node name. Reserved words are: %(reserved)s."
              [name; JList (JStr <$> reserved_names)])
         http_client.BAD_REQUEST)).

(** Update rpc_node based on changed fields in a node. *)
Definition _update_changed_fields `{!Env} (node : Node.t) (rpc_node : obj) : obj :=
  foldl (λ (rpc_node : obj) field,
           if Node.hasattr node field then
             let patch_val := default JNull (Node.getattr node field) in
             if bool_decide (column rpc_node field ≠ patch_val)
             then <[field := patch_val]> rpc_node
             else rpc_node
           else
             (* Ignore fields that aren't exposed in the API *)
             rpc_node)
        rpc_node objects_Node_fields.

(** [rpc_node.obj_what_changed()]: the fields that were assigned since the
    object [original] was read; [_update_changed_fields] assigns a field
    only when its value differs. *)
Definition obj_what_changed `{!Env} (original rpc_node : obj) : list string :=
  filter (λ k, column original k ≠ column rpc_node k) objects_Node_fields.

(** Checks if the driver and the console is enabled in a node. *)
Definition _check_driver_changed_and_console_enabled `{!Env}
    (original rpc_node : obj) (node_ident : string) : api unit :=
  let delta := obj_what_changed original rpc_node in
  raise_if (bool_decide ("driver" ∈ delta) && truthy (column rpc_node "console_enabled"))
    (ClientSideError
       (pct "Node %s can not update the driver while the console is enabled. Please stop the console first."
            [JStr node_ident])
       http_client.CONFLICT).

(** Create a new node. *)
Definition post `{!Env} (node : Node.t) : api Node.t :=
  authorize "baremetal:node:create";;
  raise_if from_chassis (ironic OperationNotPermitted []);;
  raise_if (negb allow_resource_class
            && bool_decide (Node.getattr node "resource_class" ≠ None))
    (ironic NotAcceptable []);;
  let n_interface := Node.getattr node "network_interface" in
  raise_if (negb allow_network_interface && bool_decide (n_interface ≠ None))
    (ironic NotAcceptable []);;
  match n_interface with
  | Some n_interface =>
      raise_if (negb (is_valid_network_interface n_interface))
        (ClientSideError
           (pct "Cannot create node with the invalid network interface '%(n_interface)s'. Enabled network interfaces are: %(enabled_int)s"
                [n_interface; enabled_network_interfaces])
           http_client.BAD_REQUEST)
  | None => mret tt
  end;;
  (* We need to ensure that node has a UUID before it can be mapped onto
     the hash ring. *)
  let node :=
    if negb (truthy_attr (Node.getattr node "uuid"))
    then Node.assign node "uuid" (Some (JStr generate_uuid))
    else node in
  (* convert from 404 to 400 because client can see list of available
     drivers and shouldn't request one that doesn't exist. *)
  recode NoValidHost http_client.BAD_REQUEST (get_topic_for (Node.attrs node));;
  match Node.getattr node "name" with
  | Some name =>
      if bool_decide (name ≠ JNull) then
        _check_names_acceptable [name] "Cannot create node with invalid name '%(name)s'"
      else mret tt
  | None => mret tt
  end;;
  let node := Node.assign node "provision_state" (Some initial_node_provision_state) in
  new_node ← objects_Node_create (Node.as_dict node);
  (* Set the HTTP Location Header *)
  modify (set_location (build_url "nodes" (text_of (column new_node "uuid"))));;
  Node.convert_with_links new_node.

(** [patch], from the point where the update of [rpc_node] has been let
    through: the names the patch sets are checked, the patch is applied, the
    changed fields are handed to the conductor. *)
Definition patch_proceed `{!Env} (node_ident : string) (patch : list patch_op)
    (rpc_node : obj) : api Node.t :=
  let names := get_patch_values patch "/name" in
  (if bool_decide (length names ≠ 0)%nat then
     _check_names_acceptable names
       ("Node " ++ node_ident ++ ": Cannot change name to invalid name " ++ "'%(name)s'")
   else mret tt);;
  node ←
    (let node_dict := rpc_node in
     (* 1) Remove chassis_id because it's an internal value and not present
           in the API object  2) Add chassis_uuid *)
     let node_dict :=
       <["chassis_uuid" := column node_dict "chassis_id"]> (delete "chassis_id" node_dict) in
     match apply_jsonpatch node_dict patch with
     | Return patched => Node.__init__ patched
     | Raise (JsonPatchException reason) =>
         raise (ironic PatchError [("patch", JList (JStr ∘ path <$> patch));
                                   ("reason", reason)])
     | Raise e => raise e
     end);
  let original := rpc_node in
  let rpc_node := _update_changed_fields node rpc_node in
  (* we calculate the rpc topic here in case node.driver has changed, so
     that update is sent to the new conductor, not the old one which may
     fail to load the new driver. *)
  topic ← recode NoValidHost http_client.BAD_REQUEST (get_topic_for rpc_node);
  _check_driver_changed_and_console_enabled original rpc_node node_ident;;
  new_node ← rpc (update_node rpc_node topic);
  Node.convert_with_links (node_of_reply new_node).

(** Update an existing node. *)
Definition patch `{!Env} (node_ident : string) (patch : list patch_op) : api Node.t :=
  authorize "baremetal:node:update";;
  raise_if from_chassis (ironic OperationNotPermitted []);;
  let resource_class := get_patch_values patch "/resource_class" in
  raise_if (truthy (JList resource_class) && negb allow_resource_class)
    (ironic NotAcceptable []);;
  let n_interfaces := get_patch_values patch "/network_interface" in
  raise_if (truthy (JList n_interfaces) && negb allow_network_interface)
    (ironic NotAcceptable []);;
  for_each n_interfaces (λ n_interface,
    raise_if (bool_decide (n_interface ≠ JNull)
              && negb (is_valid_network_interface n_interface))
      (ClientSideError
         (pct "Node %(node)s: Cannot change network_interface to invalid value: %(n_interface)s"
              [JStr node_ident; n_interface])
         http_client.BAD_REQUEST));;
  rpc_node ← get_rpc_node node_ident;
  let remove_inst_uuid_patch := [mkPatchOp "remove" "/instance_uuid" None] in
  (if truthy (column rpc_node "maintenance")
      && bool_decide (patch = remove_inst_uuid_patch)
   then mret tt (* LOG.debug *)
   else
     (* Check if node is transitioning state, although nodes in some states
        can be updated. *)
     raise_if (truthy (column rpc_node "target_provision_state")
               && bool_decide (column rpc_node "provision_state" ∉ UPDATE_ALLOWED_STATES))
       (ClientSideError
          (pct "Node %s can not be updated while a state transition is in progress."
               [JStr node_ident])
          http_client.CONFLICT));;
  patch_proceed node_ident patch rpc_node.

(** Delete a node. *)
Definition delete `{!Env} (node_ident : string) : api unit :=
  authorize "baremetal:node:delete";;
  raise_if from_chassis (ironic OperationNotPermitted []);;
  rpc_node ← get_rpc_node node_ident;
  topic ← recode NoValidHost http_client.BAD_REQUEST (get_topic_for rpc_node);
  rpc (destroy_node (column rpc_node "uuid") topic);;
  mret tt.

(** The PATCH request as the framework serves it: every operation of the
    body is validated as a [NodePatchType], then the handler runs. *)
Definition patch_request `{!Env} (node_ident : string) (body : list patch_op)
    : api Node.t :=
  validated ← fold_each body
                (λ acc p, p' ← NodePatchType.validate p; mret (acc ++ [p'])%list) [];
  patch node_ident validated.

End NodesController.

(** ** A concrete deployment

    One API process in front of one conductor, [fake-mini], that serves the
    [fake] driver; used to run the handlers on concrete requests. *)

Module sample.

(** Modelled from the spec: the state machine of ironic.common.states is not
    among the sources.  These are the key transitions of the design's table
    (manageable/provide, cleaning/done, cleaning/fail, available/deploy,
    deploying/done, deploying/fail, active/delete, deleting/done), with the
    verbs of the request boundary placed along the lifecycle enroll, manage,
    clean, available, deploy, active, rebuild/delete. *)
Definition transitions : list (string * string) :=
  [("enroll", "manage");
   ("manageable", "provide"); ("manageable", "clean"); ("manageable", "inspect");
   ("cleaning", "done"); ("cleaning", "fail");
   ("available", "deploy"); ("available", "manage");
   ("deploying", "done"); ("deploying", "fail");
   ("active", "delete"); ("active", "rebuild");
   ("deleting", "done")].

Definition actionable (state : json) (event : string) : bool :=
  bool_decide ((text_of state, event) ∈ transitions).

(** The values a patch assigns at [path]. *)
Definition patch_values (patch : list patch_op) (p : string) : list json :=
  omap (λ o, if bool_decide (path o = p) && bool_decide (op o ≠ "remove")
             then Some (default JNull (value o)) else None) patch.

(** A patch applier for documents whose paths name a top-level attribute:
    [add] and [replace] set it, [remove] drops it. *)
Definition apply_top_level (doc : obj) (patch : list patch_op) : outcome obj :=
  foldl (λ acc o,
           match acc with
           | Return d =>
               match split (Ascii.ascii_of_nat 47) (path o) with
               | [_; k] =>
                   if bool_decide (op o = "remove") then
                     if bool_decide (is_Some (d !! k)) then Return (delete k d)
                     else Raise (JsonPatchException (JStr "can't remove non-existent object"))
                   else Return (<[k := default JNull (value o)]> d)
               | _ => Raise (JsonPatchException (JStr "unsupported path"))
               end
           | Raise e => Raise e
           end)
        (Return doc) patch.

(** By uuid first, then by logical name. *)
Definition lookup (table : gmap string obj) (node_ident : string) : outcome obj :=
  match table !! node_ident with
  | Some n => Return n
  | None =>
      match filter (λ kv, column kv.2 "name" = JStr node_ident) (map_to_list table) with
      | (_, n) :: _ => Return n
      | [] => Raise (ironic NodeNotFound [("node", JStr node_ident)])
      end
  end.

Definition node_fields : list string :=
  ["id"; "uuid"; "name"; "chassis_id"; "instance_uuid"; "driver"; "driver_info";
   "driver_internal_info"; "clean_step"; "raid_config"; "target_raid_config";
   "instance_info"; "properties"; "reservation"; "conductor_affinity";
   "power_state"; "target_power_state"; "provision_state";
   "provision_updated_at"; "target_provision_state"; "maintenance";
   "maintenance_reason"; "console_enabled"; "last_error";
   "inspection_finished_at"; "inspection_started_at"; "extra";
   "network_interface"; "resource_class"; "created_at"; "updated_at"].

Definition vendor_methods : json :=
  JDict {[ "first_method" := JDict {[ "async" := JBool true ]} ]}.

Definition answers (c : rpc_call) : outcome json :=
  match c with
  | get_node_vendor_passthru_methods _ _ => Return vendor_methods
  | update_node n _ => Return (JDict n)
  | _ => Return JNull
  end.

(** The answers after the conductor was restarted with a newer driver. *)
Definition answers_after_upgrade (c : rpc_call) : outcome json :=
  match c with
  | get_node_vendor_passthru_methods _ _ =>
      Return (JDict {[ "second_method" := JDict {[ "async" := JBool false ]} ]})
  | other => answers other
  end.

Definition deployment (minor : nat) (reply : rpc_call → outcome json) : Env := {|
  policy_authorize := λ _, true;
  version_minor := minor;
  show_password := true;
  public_url := "http://localhost:6385";
  from_chassis := false;
  management_verb_allowed := λ _, true;
  allow_raid_config := bool_decide (versions.MINOR_12_RAID_CONFIG ≤ minor)%nat;
  allow_node_logical_names := true;
  allow_resource_class := true;
  allow_network_interface := true;
  allow_links_node_states_and_driver_properties := true;
  is_valid_network_interface :=
    λ v, bool_decide (v ∈ [JStr "flat"; JStr "noop"; JStr "neutron"]);
  enabled_network_interfaces := JList [JStr "flat"; JStr "noop"; JStr "neutron"];
  is_valid_node_name := λ v, negb (String.eqb (text_of v) "");
  controller_reserved_names := ["detail"; "validate"; "states"; "ports"];
  initial_node_provision_state := JStr "enroll";
  JsonPatchType_internal_attrs :=
    ["/created_at"; "/id"; "/links"; "/updated_at"; "/uuid"];
  get_patch_values := patch_values;
  apply_jsonpatch := apply_top_level;
  lookup_rpc_node := lookup;
  is_actionable_event := actionable;
  UPDATE_ALLOWED_STATES := [JStr "deploy failed"; JStr "clean failed"; JStr "error"];
  CLEANING_INTERFACE_PRIORITY := ["power"; "management"; "deploy"; "raid"];
  objects_Node_fields := node_fields;
  objects_Chassis_get :=
    λ v, Raise (ironic ChassisNotFound [("chassis", v)]);
  hash_ring_owner :=
    λ driver _, if bool_decide (driver = "fake")
                then Some "ironic.conductor_manager.fake-mini" else None;
  conductor := reply;
  generate_uuid := "dcf1fbc5-93fc-4596-9395-b80572f6267b";
  build_url := λ resource args, "/v1/" ++ resource ++ "/" ++ args;
  make_link := λ rel url resource args bookmark,
    JDict {[ "rel" := JStr rel;
             "href" := JStr (url ++ (if bookmark then "/" else "/v1/") ++ resource ++ "/" ++ args) ]};
  mask_dict_password := λ d _, d
|}.

(** The deployment as seen by a request of API version 1.[minor]. *)
Definition env (minor : nat) : Env := deployment minor answers.

Definition node_uuid : string := "1be26c0b-03f2-4d2e-ae87-c02d7f33c123".

(** A node row: state, target state, lock holder, maintenance flag. *)
Definition node (provision_state target_provision_state reservation : json)
    (maintenance : bool) : obj :=
  list_to_map
    [("id", JNum 1); ("uuid", JStr node_uuid); ("name", JStr "database16-dc02");
     ("chassis_id", JNull); ("instance_uuid", JNull); ("driver", JStr "fake");
     ("driver_info", JDict ∅); ("driver_internal_info", JDict ∅);
     ("clean_step", JDict ∅); ("raid_config", JNull); ("target_raid_config", JNull);
     ("instance_info", JDict ∅); ("properties", JDict ∅);
     ("reservation", reservation); ("conductor_affinity", JNull);
     ("power_state", JStr "power on"); ("target_power_state", JNull);
     ("provision_state", provision_state);
     ("provision_updated_at", JStr "2000-01-01T12:00:00");
     ("target_provision_state", target_provision_state);
     ("maintenance", JBool maintenance); ("maintenance_reason", JNull);
     ("console_enabled", JBool false); ("last_error", JNull);
     ("inspection_finished_at", JNull); ("inspection_started_at", JNull);
     ("extra", JDict ∅); ("network_interface", JStr "flat");
     ("resource_class", JNull); ("created_at", JStr "2000-01-01T12:00:00");
     ("updated_at", JStr "2000-01-01T12:00:00")].

(** [self.fields] of an API node in this deployment. *)
Definition body_fields : list string :=
  (filter (λ k, k ∈ Node.class_attrs) (node_fields ++ ["chassis_uuid"])
   ++ ["chassis_id"])%list.

(** The API node the framework builds from a request body. *)
Definition body (attrs : obj) : Node.t := Node.mk attrs body_fields.

(** The world in which the table holds exactly [n]. *)
Definition world (n : obj) : World :=
  mkWorld {[ node_uuid := n ]} [] ∅ None.

(** The world before any node is enrolled. *)
Definition empty_world : World := mkWorld ∅ [] ∅ None.

(** A conductor whose nodes have no console enabled and whose drivers have
    no RAID interface. *)
Definition conductor_api : ConductorAPI := {|
  change_node_power_state := λ _ _ _, mret tt;
  set_target_raid_config := λ _ _ _,
    raise (IronicException UnsupportedDriverExtension http_client.BAD_REQUEST
             [("driver", JStr "fake"); ("extension", JStr "raid")]);
  get_console_information := λ node_id _,
    raise (IronicException NodeConsoleNotEnabled http_client.BAD_REQUEST
             [("node", node_id)]);
  set_console_mode := λ _ _ _, mret tt;
  get_boot_device := λ _ _,
    mret (JDict {[ "boot_device" := JStr "pxe"; "persistent" := JBool false ]});
  get_supported_boot_devices := λ _ _, mret (JList [JStr "pxe"]);
  set_boot_device := λ _ _ _ _, mret tt;
  vendor_passthru := λ _ _ _ _, mret JNull
|}.

Definition power_states : PowerStates := {|
  POWER_ON := "power on";
  POWER_OFF := "power off";
  REBOOT := "rebooting";
  CLEANWAIT := "clean wait";
  CLEANING := "cleaning"
|}.

(** The deployment [E] under another policy. *)
Definition with_policy (allowed : string → bool) (E : Env) : Env := {|
  policy_authorize := allowed;
  version_minor := version_minor (Env := E);
  show_password := show_password (Env := E);
  public_url := public_url (Env := E);
  from_chassis := from_chassis (Env := E);
  management_verb_allowed := management_verb_allowed (Env := E);
  allow_raid_config := allow_raid_config (Env := E);
  allow_node_logical_names := allow_node_logical_names (Env := E);
  allow_resource_class := allow_resource_class (Env := E);
  allow_network_interface := allow_network_interface (Env := E);
  allow_links_node_states_and_driver_properties :=
    allow_links_node_states_and_driver_properties (Env := E);
  is_valid_network_interface := is_valid_network_interface (Env := E);
  enabled_network_interfaces := enabled_network_interfaces (Env := E);
  is_valid_node_name := is_valid_node_name (Env := E);
  controller_reserved_names := controller_reserved_names (Env := E);
  initial_node_provision_state := initial_node_provision_state (Env := E);
  JsonPatchType_internal_attrs := JsonPatchType_internal_attrs (Env := E);
  get_patch_values := get_patch_values (Env := E);
  apply_jsonpatch := apply_jsonpatch (Env := E);
  lookup_rpc_node := lookup_rpc_node (Env := E);
  is_actionable_event := is_actionable_event (Env := E);
  UPDATE_ALLOWED_STATES := UPDATE_ALLOWED_STATES (Env := E);
  CLEANING_INTERFACE_PRIORITY := CLEANING_INTERFACE_PRIORITY (Env := E);
  objects_Node_fields := objects_Node_fields (Env := E);
  objects_Chassis_get := objects_Chassis_get (Env := E);
  hash_ring_owner := hash_ring_owner (Env := E);
  conductor := conductor (Env := E);
  generate_uuid := generate_uuid (Env := E);
  build_url := build_url (Env := E);
  make_link := make_link (Env := E);
  mask_dict_password := mask_dict_password (Env := E)
|}.

(** A caller that may read, and send heartbeats, and nothing else. *)
Definition observer (rule : string) : bool :=
  bool_decide (rule ∈ ["baremetal:node:get"; "baremetal:node:get_states";
                       "baremetal:node:get_console"; "baremetal:node:get_boot_device";
                       "baremetal:node:ipa_heartbeat"]).

End sample.

(** * Statements

    The vocabulary in which the behaviour of the handlers is stated. *)

#[global] Instance outcome_eq_dec {A} `{EqDecision A} : EqDecision (outcome A).
Proof. solve_decision. Defined.
#[global] Instance World_eq_dec : EqDecision World.
Proof. solve_decision. Defined.
#[global] Instance Node_eq_dec : EqDecision Node.t.
Proof. solve_decision. Defined.

(** The class of the exception a run ended with. *)
Definition raised_class {A} (run : outcome A * World) : option ironic_exc :=
  match run.1 with Raise e => exn_class e | Return _ => None end.

(** A computation that leaves the world as it found it. *)
Definition pure {A} (m : api A) : Prop := ∀ w, (m w).2 = w.

(** A computation after which every entry of the vendor-method cache is
    still there, unchanged. *)
Definition keeps_cache {A} (m : api A) : Prop :=
  ∀ w d v, _VENDOR_METHODS w !! d = Some v → _VENDOR_METHODS (m w).2 !! d = Some v.

(** The request gets as far as the node: it is authorised under [rule], the
    node is found, and the hash ring names the conductor that owns it. *)
Definition reaches_node `{!Env} (rule node_ident : string) (w : World)
    (rpc_node : obj) (topic : string) : Prop :=
  policy_authorize rule = true
  ∧ lookup_rpc_node (db w) node_ident = Return rpc_node
  ∧ hash_ring_owner (text_of (column rpc_node "driver")) (column rpc_node "uuid")
    = Some topic.

#[global] Instance reaches_node_dec `{!Env} rule node_ident w rpc_node topic :
  Decision (reaches_node rule node_ident w rpc_node topic).
Proof. unfold reaches_node. apply _. Defined.

(** ** Provisioning *)

(** The event that [target] asks for is not actionable from the state the
    node is in. *)
Definition not_actionable `{!Env} (rpc_node : obj) (target : string) : Prop :=
  is_actionable_event (column rpc_node "provision_state")
    (default target (ir_states.VERBS !! target)) = false.

#[global] Instance not_actionable_dec `{!Env} rpc_node target :
  Decision (not_actionable rpc_node target).
Proof. unfold not_actionable. apply _. Defined.

(** The answer to a request the state machine does not let through. *)
Definition not_actionable_answer (target : string) (rpc_node : obj) : exn :=
  if truthy (column rpc_node "reservation")
  then ironic NodeLocked [("node", column rpc_node "uuid");
                          ("host", column rpc_node "reservation")]
  else ironic InvalidStateRequested
         [("action", JStr target); ("node", column rpc_node "uuid");
          ("state", column rpc_node "provision_state")].

(** Provisioning a node in maintenance is refused for these two targets. *)
Definition refused_in_maintenance (target : string) (rpc_node : obj) : bool :=
  bool_decide (target ∈ [ir_states.ACTIVE; ir_states.REBUILD])
  && truthy (column rpc_node "maintenance").

(** The specification's scenario: deploy on a node that is deploying is
    rejected with InvalidStateRequested and changes nothing. *)
Definition deploy_while_deploying_spec `{!Env} (node_ident : string)
    (configdrive clean_steps : json) (w : World) : Prop :=
  ∀ rpc_node,
    lookup_rpc_node (db w) node_ident = Return rpc_node →
    column rpc_node "provision_state" = JStr "deploying" →
    ∃ e, NodeStatesController.provision node_ident ir_states.ACTIVE
           configdrive clean_steps w = (Raise e, w)
         ∧ exn_class e = Some InvalidStateRequested.

(** The specification's statement on contention: an event that is not
    actionable on a node with a reservation is answered with NodeLocked. *)
Definition locked_node_spec `{!Env} (node_ident target : string)
    (configdrive clean_steps : json) (w : World) : Prop :=
  ∀ rpc_node,
    lookup_rpc_node (db w) node_ident = Return rpc_node →
    not_actionable rpc_node target →
    column rpc_node "reservation" ≠ JNull →
    NodeStatesController.provision node_ident target configdrive clean_steps w =
      (Raise (ironic NodeLocked [("node", column rpc_node "uuid");
                                 ("host", column rpc_node "reservation")]), w).

(** The targets [provision] knows how to dispatch. *)
Definition recognized_targets : list string :=
  ["active"; "rebuild"; "deleted"; "manage"; "provide"; "inspect"; "clean";
   "abort"; "adopt"].

(** The specification's statement on unknown targets: InvalidStateRequested,
    and nothing sent to a conductor. *)
Definition unrecognized_target_spec `{!Env} (node_ident target : string)
    (configdrive clean_steps : json) (w : World) : Prop :=
  target ∉ recognized_targets →
  ∃ e w', NodeStatesController.provision node_ident target configdrive clean_steps w
            = (Raise e, w')
          ∧ exn_class e = Some InvalidStateRequested
          ∧ rpc_log w' = rpc_log w.

(** What an unrecognised target is answered with once the request has reached
    the node. *)
Definition unrecognized_answer `{!Env} (target : string) (configdrive clean_steps : json)
    (rpc_node : obj) : exn :=
  if negb (is_actionable_event (column rpc_node "provision_state")
             (default target (ir_states.VERBS !! target)))
  then not_actionable_answer target rpc_node
  else if truthy configdrive then
    ClientSideError
      (pct "Adding a config drive is only supported when setting provision state to %s"
           [JStr ir_states.ACTIVE])
      http_client.BAD_REQUEST
  else if truthy clean_steps then
    ClientSideError
      (pct "'clean_steps' is only valid when setting target provision state to %s"
           [JStr (ir_states.VERBS !!! "clean")])
      http_client.BAD_REQUEST
  else
    ironic InvalidStateRequested
      [("message",
        pct "The requested action '%(action)s' could not be understood."
            [JStr target])].

(** A clean step that lacks a required key, names an interface that is not a
    cleaning interface, or carries a key other than the three expected. *)
Definition malformed_step `{!Env} (step : json) : Prop :=
  ∃ m, step = JDict m
       ∧ (m !! "interface" = None
          ∨ m !! "step" = None
          ∨ (∃ v, m !! "interface" = Some v ∧ v ∉ JStr <$> CLEANING_INTERFACE_PRIORITY)
          ∨ (∃ k, is_Some (m !! k) ∧ k ∉ ["interface"; "step"; "args"])).

(** The requests whose clean steps are at fault: none or malformed ones with
    the target clean, or any with another target. *)
Definition clean_steps_refused `{!Env} (target : string) (clean_steps : json) : Prop :=
  (target = "clean"
   ∧ (truthy clean_steps = false
      ∨ ∃ l s, clean_steps = JList l ∧ s ∈ l ∧ malformed_step s))
  ∨ (target ≠ "clean" ∧ truthy clean_steps = true).

(** How faulty clean steps are answered when the target is clean. *)
Definition clean_steps_answer `{!Env} (clean_steps : json) : exn :=
  if truthy clean_steps then
    ironic InvalidParameterValue
      [("message", pct "Invalid clean_steps: %s" [JStr "ValidationError"])]
  else
    ClientSideError
      (pct "'clean_steps' is required when setting target provision state to %s"
           [JStr (ir_states.VERBS !!! "clean")])
      http_client.BAD_REQUEST.

(** The specification's statement on malformed clean steps:
    InvalidParameterValue, and nothing sent to a conductor. *)
Definition malformed_clean_steps_spec `{!Env} (node_ident : string)
    (configdrive clean_steps : json) (w : World) : Prop :=
  ∀ l s, clean_steps = JList l → s ∈ l → malformed_step s →
    ∃ e w', NodeStatesController.provision node_ident "clean" configdrive clean_steps w
              = (Raise e, w')
            ∧ exn_class e = Some InvalidParameterValue
            ∧ rpc_log w' = rpc_log w.

(** One clean step, without its interface. *)
Definition steps_without_interface : json :=
  JList [JDict {[ "step" := JStr "erase_devices" ]}].

(** ** Reading the states *)

Definition state_attrs : list string :=
  ["console_enabled"; "last_error"; "power_state"; "provision_state";
   "target_power_state"; "target_provision_state"; "provision_updated_at"].

Definition raid_attrs : list string := ["raid_config"; "target_raid_config"].

(** The provision state a client of this API version is shown. *)
Definition shown_provision_state `{!Env} (rpc_node : obj) : json :=
  if bool_decide (version_minor < versions.MINOR_2_AVAILABLE_STATE)%nat
     && bool_decide (column rpc_node "provision_state" = JStr ir_states.AVAILABLE)
  then ir_states.NOSTATE
  else column rpc_node "provision_state".

(** The specification's statement on reading the states: exactly the stored
    values, and no change. *)
Definition get_states_spec `{!Env} (node_ident : string) (w : World) : Prop :=
  ∀ rpc_node,
    lookup_rpc_node (db w) node_ident = Return rpc_node →
    ∃ states, NodeStatesController.get node_ident w = (Return states, w)
              ∧ ∀ attr, attr ∈ state_attrs → states !! attr = Some (column rpc_node attr).

(** ** The life of the API process *)

Inductive request :=
  | GetStates (node_ident : string)
  | Provision (node_ident target : string) (configdrive clean_steps : json)
  | VendorMethods (node_ident : string)
  | CreateNode (node : Node.t)
  | PatchNode (node_ident : string) (body : list patch_op)
  | DeleteNode (node_ident : string).

(** The world after the API process has served a request. *)
Definition serve `{!Env} (r : request) (w : World) : World :=
  match r with
  | GetStates node_ident => (NodeStatesController.get node_ident w).2
  | Provision node_ident target configdrive clean_steps =>
      (NodeStatesController.provision node_ident target configdrive clean_steps w).2
  | VendorMethods node_ident => (NodeVendorPassthruController.methods node_ident w).2
  | CreateNode node => (NodesController.post node w).2
  | PatchNode node_ident body => (NodesController.patch_request node_ident body w).2
  | DeleteNode node_ident => (NodesController.delete node_ident w).2
  end.

(** The world after a sequence of requests, each in its own environment. *)
Fixpoint serve_all (rs : list (Env * request)) (w : World) : World :=
  match rs with
  | [] => w
  | (E, r) :: rs' => serve_all rs' (serve (H := E) r w)
  end.

(** ** Creating and deleting *)

(** The request checks of [post] that come before the hash ring is asked. *)
Definition passes_create_checks `{!Env} (node : Node.t) : Prop :=
  policy_authorize "baremetal:node:create" = true
  ∧ from_chassis = false
  ∧ (negb allow_resource_class
       && bool_decide (Node.getattr node "resource_class" ≠ None)) = false
  ∧ (negb allow_network_interface
       && bool_decide (Node.getattr node "network_interface" ≠ None)) = false
  ∧ match Node.getattr node "network_interface" with
    | Some v => is_valid_network_interface v
    | None => true
    end = true.

#[global] Instance passes_create_checks_dec `{!Env} node :
  Decision (passes_create_checks node).
Proof. unfold passes_create_checks. apply _. Defined.

(** No conductor in the hash ring serves the driver of [node]. *)
Definition no_conductor_for `{!Env} (node : obj) : Prop :=
  ∀ uuid, hash_ring_owner (text_of (column node "driver")) uuid = None.

(** How a request for a driver without a conductor is answered. *)
Definition no_valid_host (node : obj) : exn :=
  IronicException NoValidHost http_client.BAD_REQUEST [("reason", column node "driver")].

(** The specification's statement on creating a node whose driver no
    conductor serves: NoValidHost, as a 400. *)
Definition create_without_conductor_spec `{!Env} (node : Node.t) (w : World) : Prop :=
  no_conductor_for (Node.attrs node) →
  ∃ e, NodesController.post node w = (Raise e, w)
       ∧ exn_class e = Some NoValidHost
       ∧ exn_code e = http_client.BAD_REQUEST.

(** The uuid a created node goes by: the caller's, or a fresh one. *)
Definition uuid_of_created `{!Env} (node : Node.t) : json :=
  if truthy_attr (Node.getattr node "uuid")
  then default JNull (Node.getattr node "uuid")
  else JStr generate_uuid.

(** ** Updating *)

(** The request checks of [patch] that come before the node is read. *)
Definition passes_update_checks `{!Env} (patch : list patch_op) : Prop :=
  policy_authorize "baremetal:node:update" = true
  ∧ from_chassis = false
  ∧ (truthy (JList (get_patch_values patch "/resource_class"))
       && negb allow_resource_class) = false
  ∧ (truthy (JList (get_patch_values patch "/network_interface"))
       && negb allow_network_interface) = false
  ∧ forallb (λ n_interface,
               negb (bool_decide (n_interface ≠ JNull)
                     && negb (is_valid_network_interface n_interface)))
            (get_patch_values patch "/network_interface") = true.

#[global] Instance passes_update_checks_dec `{!Env} p :
  Decision (passes_update_checks p).
Proof. unfold passes_update_checks. apply _. Defined.

(** The node is in the middle of a transition that forbids updates. *)
Definition in_transition `{!Env} (rpc_node : obj) : Prop :=
  truthy (column rpc_node "target_provision_state") = true
  ∧ column rpc_node "provision_state" ∉ UPDATE_ALLOWED_STATES.

#[global] Instance in_transition_dec `{!Env} rpc_node : Decision (in_transition rpc_node).
Proof. unfold in_transition. apply _. Defined.

(** The one patch that is let through on a node in maintenance. *)
Definition releases_instance (rpc_node : obj) (patch : list patch_op) : bool :=
  truthy (column rpc_node "maintenance")
  && bool_decide (patch = [mkPatchOp "remove" "/instance_uuid" None]).

Definition transition_conflict (node_ident : string) : exn :=
  ClientSideError
    (pct "Node %s can not be updated while a state transition is in progress."
         [JStr node_ident])
    http_client.CONFLICT.

(** No operation of the body addresses an internal attribute, so that the
    body passes validation. *)
Definition no_internal_attribute `{!Env} (body : list patch_op) : Prop :=
  Forall (λ o, top_level (path o) ∉ NodePatchType.internal_attrs) body.

#[global] Instance no_internal_attribute_dec `{!Env} body :
  Decision (no_internal_attribute body).
Proof. unfold no_internal_attribute. apply _. Defined.

(** The specification's statement on updates during a transition: the PATCH
    request is answered with a 409. *)
Definition patch_in_transition_spec `{!Env} (node_ident : string)
    (body : list patch_op) (w : World) : Prop :=
  ∀ rpc_node,
    lookup_rpc_node (db w) node_ident = Return rpc_node →
    in_transition rpc_node →
    releases_instance rpc_node body = false →
    ∃ e, NodesController.patch_request node_ident body w = (Raise e, w)
         ∧ exn_code e = http_client.CONFLICT.

(** The fields that record where a node is in its life cycle. *)
Definition lifecycle_fields : list string :=
  ["reservation"; "provision_state"; "power_state"; "target_power_state";
   "target_provision_state"; "last_error"; "console_enabled";
   "driver_internal_info"; "clean_step"; "provision_updated_at"; "raid_config"].

(** What the handlers rely on of [api_utils.apply_jsonpatch]: an attribute of
    the document that no operation of the patch starts in is left alone. *)
Definition patch_frame `{!Env} : Prop :=
  ∀ doc patch doc' k,
    apply_jsonpatch doc patch = Return doc' →
    (∀ o, o ∈ patch → top_level (path o) ≠ "/" ++ k) →
    doc' !! k = doc !! k.

(** An attribute of the API node that is a plain value of the class. *)
Definition plain_attr (f : string) : Prop :=
  f ∈ Node.class_attrs ∧ f ≠ "chassis_uuid" ∧ f ≠ "_chassis_uuid" ∧ f ≠ "chassis_id".

(** ** Clean steps in the expected format *)

(** A clean step in the expected format: an object with an interface out of
    the cleaning interfaces, a step name that is a non-empty string, possibly
    arguments that are an object, and nothing else. *)
Definition well_formed_step `{!Env} (step : json) : Prop :=
  ∃ m, step = JDict m
       ∧ (∃ v, m !! "interface" = Some v ∧ v ∈ JStr <$> CLEANING_INTERFACE_PRIORITY)
       ∧ (∃ s, m !! "step" = Some (JStr s) ∧ s ≠ "")
       ∧ (∀ v, m !! "args" = Some v → ∃ a, v = JDict a)
       ∧ (∀ k, is_Some (m !! k) → k ∈ ["interface"; "step"; "args"]).

(** ** What a provision request sends *)

(** The call that a provision request for [target] hands to the conductor. *)
Definition dispatched (target : string) (node_id configdrive clean_steps : json)
    (topic : string) : option rpc_call :=
  if bool_decide (target = "active") then
    Some (do_node_deploy node_id false configdrive topic)
  else if bool_decide (target = "rebuild") then
    Some (do_node_deploy node_id true JNull topic)
  else if bool_decide (target = "deleted") then Some (do_node_tear_down node_id topic)
  else if bool_decide (target = "inspect") then Some (inspect_hardware node_id topic)
  else if bool_decide (target = "clean") then
    Some (do_node_clean node_id clean_steps topic)
  else if bool_decide (target ∈ ["manage"; "provide"; "abort"; "adopt"]) then
    Some (do_provisioning_action node_id target topic)
  else None.

(** ** What the requests leave as it was *)

(** A computation after which the world is related to the one before it. *)
Definition preserves (R : relation World) {A} (m : api A) : Prop :=
  ∀ w, R w (m w).2.

(** The node table is as it was. *)
Definition same_table : relation World := λ w w', db w' = db w.

(** Every row of the node table is still there, unchanged, and every call
    that was sent is still on record, in its place. *)
Definition history_kept : relation World := λ w w',
  db w ⊆ db w' ∧ rpc_log w `prefix_of` rpc_log w'.

(** The requests that create a node. *)
Definition creates (r : request) : bool :=
  match r with CreateNode _ => true | _ => false end.

#[global] Instance same_table_refl : Reflexive same_table.
Proof. by intros w. Defined.
#[global] Instance same_table_trans : Transitive same_table.
Proof. unfold same_table. intros w1 w2 w3 H1 H2. by rewrite H2. Defined.
#[global] Instance history_kept_refl : Reflexive history_kept.
Proof. by intros w. Defined.
#[global] Instance history_kept_trans : Transitive history_kept.
Proof. intros w1 w2 w3 [? ?] [? ?]. split; by etrans. Defined.

(** ** What the API shows of a node *)

(** The fields that the API version of the request does not know. *)
Definition hidden_fields `{!Env} : list string :=
  ((if bool_decide (version_minor < versions.MINOR_3_DRIVER_INTERNAL_INFO)%nat
    then ["driver_internal_info"] else [])
   ++ (if allow_node_logical_names then [] else ["name"])
   ++ (if bool_decide (version_minor < versions.MINOR_6_INSPECT_STATE)%nat
       then ["inspection_finished_at"; "inspection_started_at"] else [])
   ++ (if bool_decide (version_minor < versions.MINOR_7_NODE_CLEAN)%nat
       then ["clean_step"] else [])
   ++ (if bool_decide (version_minor < versions.MINOR_12_RAID_CONFIG)%nat
       then ["raid_config"; "target_raid_config"] else [])
   ++ (if bool_decide (version_minor < versions.MINOR_20_NETWORK_INTERFACE)%nat
       then ["network_interface"] else [])
   ++ (if allow_resource_class then [] else ["resource_class"]))%list.

(** The attributes that [convert_with_links] computes rather than copies. *)
Definition computed_attrs : list string :=
  ["provision_state"; "driver_info"; "ports"; "states"; "links"].

(** ** The requests on a node *)

(** A request on a node that exists, by the handler that serves it. *)
Inductive node_request :=
  | states_get
  | states_power (target : string)
  | states_raid (target_raid_config : json)
  | states_provision (target : string) (configdrive clean_steps : json)
  | console_get
  | console_put (enabled : bool)
  | boot_device_put (boot_device : string) (persistent : bool)
  | boot_device_get
  | boot_device_supported
  | vendor_methods
  | vendor_call (method : string) (data : json)
  | maintenance_put (reason : json)
  | maintenance_delete
  | node_patch (patch : list patch_op)
  | node_delete.

(** Serving the request, whatever it returns. *)
Definition on_node `{!Env, !ConductorAPI, !PowerStates} (node_ident : string)
    (r : node_request) : api unit :=
  match r with
  | states_get => NodeStatesController.get node_ident;; mret tt
  | states_power target => NodeStatesController.power node_ident target
  | states_raid target_raid_config =>
      NodeStatesController.raid node_ident target_raid_config
  | states_provision target configdrive clean_steps =>
      NodeStatesController.provision node_ident target configdrive clean_steps
  | console_get => NodeConsoleController.get node_ident;; mret tt
  | console_put enabled => NodeConsoleController.put node_ident enabled
  | boot_device_put boot_device persistent =>
      BootDeviceController.put node_ident boot_device persistent
  | boot_device_get => BootDeviceController.get node_ident;; mret tt
  | boot_device_supported => BootDeviceController.supported node_ident;; mret tt
  | vendor_methods => NodeVendorPassthruController.methods node_ident;; mret tt
  | vendor_call method data =>
      NodeVendorPassthruController._default node_ident method data;; mret tt
  | maintenance_put reason => NodeMaintenanceController.put node_ident reason
  | maintenance_delete => NodeMaintenanceController.delete node_ident
  | node_patch patch => NodesController.patch node_ident patch;; mret tt
  | node_delete => NodesController.delete node_ident
  end.

(** The policy rule the request is authorised under. *)
Definition rule_of (r : node_request) : string :=
  match r with
  | states_get => "baremetal:node:get_states"
  | states_power _ => "baremetal:node:set_power_state"
  | states_raid _ => "baremetal:node:set_raid_state"
  | states_provision _ _ _ => "baremetal:node:set_provision_state"
  | console_get => "baremetal:node:get_console"
  | console_put _ => "baremetal:node:set_console_state"
  | boot_device_put _ _ => "baremetal:node:set_boot_device"
  | boot_device_get | boot_device_supported => "baremetal:node:get_boot_device"
  | vendor_methods => "baremetal:node:vendor_passthru"
  | vendor_call method _ =>
      if bool_decide (method = "heartbeat") then "baremetal:node:ipa_heartbeat"
      else "baremetal:node:vendor_passthru"
  | maintenance_put _ => "baremetal:node:set_maintenance"
  | maintenance_delete => "baremetal:node:clear_maintenance"
  | node_patch _ => "baremetal:node:update"
  | node_delete => "baremetal:node:delete"
  end.

(** The status a request is answered with when no conductor serves the
    driver of its node; [None] for the requests that do not ask the hash ring
    about the stored node, or not always. *)
Definition no_host_code (r : node_request) : option nat :=
  match r with
  | maintenance_put _ | maintenance_delete | node_delete => Some http_client.BAD_REQUEST
  | states_power _ | states_raid _ | states_provision _ _ _ | console_get
  | console_put _ | boot_device_put _ _ | boot_device_get | boot_device_supported
  | vendor_call _ _ => Some http_client.NOT_FOUND
  | states_get | vendor_methods | node_patch _ => None
  end.

(** The checks on the request itself that come before the node is read. *)
Definition gate_open `{!Env} (r : node_request) : bool :=
  match r with
  | states_raid _ => allow_raid_config
  | states_provision target _ _ => management_verb_allowed target
  | node_delete => negb from_chassis
  | _ => true
  end.

(** ** Power and maintenance *)

(** The power states a client may ask for. *)
Definition power_targets `{!PowerStates} : list string := [POWER_ON; POWER_OFF; REBOOT].

(** The node is being cleaned. *)
Definition being_cleaned `{!PowerStates} (rpc_node : obj) : Prop :=
  column rpc_node "provision_state" ∈ [JStr CLEANWAIT; JStr CLEANING].

#[global] Instance being_cleaned_dec `{!PowerStates} rpc_node :
  Decision (being_cleaned rpc_node).
Proof. unfold being_cleaned. apply _. Defined.

(** The node as the maintenance handlers hand it to the conductor. *)
Definition in_maintenance (mode : bool) (reason : json) (rpc_node : obj) : obj :=
  <["maintenance_reason" := reason]> (<["maintenance" := JBool mode]> rpc_node).

(** * Properties *)

(** Settles a closed, decidable statement by running its decision procedure. *)
Ltac by_compute := apply (bool_decide_unpack _); vm_compute; exact I.

(** ** Running computations *)

Section monad_facts.
Context {A B : Type} (m : api A) (f : A → api B).

Lemma bind_Return w a w1 : m w = (Return a, w1) → (m ≫= f) w = f a w1.
Proof. unfold mbind, api_bind. by intros ->. Qed.

Lemma bind_Raise w e w1 : m w = (Raise e, w1) → (m ≫= f) w = (Raise e, w1).
Proof. unfold mbind, api_bind. by intros ->. Qed.

Lemma bind_inv w r w' :
  (m ≫= f) w = (r, w') →
  (∃ e, m w = (Raise e, w') ∧ r = Raise e)
  ∨ (∃ a w1, m w = (Return a, w1) ∧ f a w1 = (r, w')).
Proof.
  unfold mbind, api_bind. destruct (m w) as [[a|e] w1]; intros Hr.
  - right. eauto.
  - left. inversion Hr; subst. eauto.
Qed.
End monad_facts.

Lemma raise_if_false e w : raise_if false e w = (Return tt, w).
Proof. done. Qed.

Lemma authorize_ok `{!Env} rule w :
  policy_authorize rule = true → authorize rule w = (Return tt, w).
Proof. unfold authorize. by intros ->. Qed.

Lemma verb_ok `{!Env} verb w :
  management_verb_allowed verb = true →
  check_allow_management_verbs verb w = (Return tt, w).
Proof. unfold check_allow_management_verbs. by intros ->. Qed.

Lemma rpc_node_found `{!Env} node_ident rpc_node w :
  lookup_rpc_node (db w) node_ident = Return rpc_node →
  get_rpc_node node_ident w = (Return rpc_node, w).
Proof. unfold get_rpc_node. by intros ->. Qed.

Lemma topic_ok `{!Env} node topic w :
  hash_ring_owner (text_of (column node "driver")) (column node "uuid") = Some topic →
  get_topic_for node w = (Return topic, w).
Proof. unfold get_topic_for. by intros ->. Qed.

Lemma for_each_passes {A} (l : list A) (c : A → bool) (e : A → exn) w :
  forallb (λ x, negb (c x)) l = true →
  for_each l (λ x, raise_if (c x) (e x)) w = (Return tt, w).
Proof.
  induction l as [|x l IH]; [done|]. cbn [forallb for_each].
  intros [Hx Hl]%andb_true_iff. apply negb_true_iff in Hx.
  rewrite Hx, (bind_Return _ _ _ _ _ (raise_if_false _ _)). by apply IH.
Qed.

(** ** Computations that leave the world alone *)

Section purity.
Context {A B : Type}.

Lemma pure_ret (a : A) : pure (mret a).
Proof. done. Qed.
Lemma pure_raise e : pure (@raise A e).
Proof. done. Qed.
Lemma pure_gets (f : World → A) : pure (gets f).
Proof. done. Qed.
Lemma pure_raise_if c e : pure (raise_if c e).
Proof. by destruct c. Qed.

Lemma pure_bind (m : api A) (f : A → api B) :
  pure m → (∀ a, pure (f a)) → pure (m ≫= f).
Proof.
  intros Hm Hf w. unfold mbind, api_bind. specialize (Hm w).
  destruct (m w) as [[a|e] w1]; simpl in *; subst; [apply Hf|done].
Qed.

Lemma pure_recode cls code (m : api A) : pure m → pure (recode cls code m).
Proof.
  intros Hm w. unfold recode. specialize (Hm w).
  by destruct (m w) as [[a|e] w1].
Qed.

Lemma pure_run (m : api A) w r w' : pure m → m w = (r, w') → w' = w.
Proof. intros Hm Hrun. specialize (Hm w). by rewrite Hrun in Hm. Qed.

Lemma bind_inv_pure (m : api A) (f : A → api B) w r w' :
  pure m → (m ≫= f) w = (r, w') →
  (∃ e, m w = (Raise e, w) ∧ r = Raise e ∧ w' = w)
  ∨ (∃ a, m w = (Return a, w) ∧ f a w = (r, w')).
Proof.
  intros Hm Hrun.
  destruct (bind_inv _ _ _ _ _ Hrun) as [(e & Hr & ->)|(a & w1 & Hr & Hf)].
  - pose proof (pure_run _ _ _ _ Hm Hr) as ->. left. by exists e.
  - pose proof (pure_run _ _ _ _ Hm Hr) as ->. right. by exists a.
Qed.
End purity.

Lemma pure_for_each {A} (l : list A) (body : A → api unit) :
  (∀ x, pure (body x)) → pure (for_each l body).
Proof.
  intros Hbody. induction l as [|x l IH]; [done|].
  apply pure_bind; [apply Hbody|done].
Qed.

Lemma pure_fold_each {A S} (l : list A) (body : S → A → api S) acc :
  (∀ s x, pure (body s x)) → pure (fold_each l body acc).
Proof.
  intros Hbody. revert acc. induction l as [|x l IH]; intros acc; [done|].
  apply pure_bind; [apply Hbody|done].
Qed.

Lemma pure_authorize `{!Env} rule : pure (authorize rule).
Proof. apply pure_raise_if. Qed.
Lemma pure_check_allow_management_verbs `{!Env} verb :
  pure (check_allow_management_verbs verb).
Proof. apply pure_raise_if. Qed.
Lemma pure_get_rpc_node `{!Env} node_ident : pure (get_rpc_node node_ident).
Proof. done. Qed.
Lemma pure_get_topic_for `{!Env} node : pure (get_topic_for node).
Proof. intros w. unfold get_topic_for. by destruct (hash_ring_owner _ _). Qed.
Lemma pure__check_clean_steps `{!Env} steps : pure (_check_clean_steps steps).
Proof. apply pure_raise_if. Qed.

Lemma pure_Node_setattr `{!Env} self k v : pure (Node.setattr self k v).
Proof.
  unfold Node.setattr, Node._set_chassis_uuid.
  repeat case_match; done.
Qed.

Lemma keeps_cache_pure {A} (m : api A) : pure m → keeps_cache m.
Proof. intros Hm w d v. by rewrite Hm. Qed.

Lemma keeps_cache_bind {A B} (m : api A) (f : A → api B) :
  keeps_cache m → (∀ a, keeps_cache (f a)) → keeps_cache (m ≫= f).
Proof.
  intros Hm Hf w d v Hd. unfold mbind, api_bind. specialize (Hm w d v Hd).
  destruct (m w) as [[a|e] w1]; simpl in *; [by apply Hf|done].
Qed.

Lemma keeps_cache_recode {A} cls code (m : api A) :
  keeps_cache m → keeps_cache (recode cls code m).
Proof.
  intros Hm w d v Hd. unfold recode. specialize (Hm w d v Hd).
  by destruct (m w) as [[a|e] w1].
Qed.

Lemma keeps_cache_rpc `{!Env} c : keeps_cache (rpc c).
Proof. by intros w d v. Qed.
Lemma keeps_cache_location l : keeps_cache (modify (set_location l)).
Proof. by intros w d v. Qed.
Lemma keeps_cache_create values : keeps_cache (objects_Node_create values).
Proof. intros w d v. unfold objects_Node_create. by repeat case_match. Qed.

Create HintDb frame discriminated.

#[local] Hint Resolve pure_ret pure_raise pure_gets pure_raise_if
  pure_authorize pure_check_allow_management_verbs pure_get_rpc_node
  pure_get_topic_for pure__check_clean_steps pure_Node_setattr
  keeps_cache_rpc keeps_cache_location keeps_cache_create : frame.

(** Walks down a handler: binds, branches and loops, then the leaves. *)
Ltac frame :=
  repeat match goal with
         | |- pure (_ ≫= _) => apply pure_bind; [|intros ?]
         | |- pure (recode _ _ _) => apply pure_recode
         | |- pure (for_each _ _) => apply pure_for_each; intros ?
         | |- pure (fold_each _ _ _) => apply pure_fold_each; intros ? ?
         | |- pure (if ?c then _ else _) => destruct c
         | |- pure (match ?x with _ => _ end) => destruct x
         | |- keeps_cache (_ ≫= _) => apply keeps_cache_bind; [|intros ?]
         | |- keeps_cache (recode _ _ _) => apply keeps_cache_recode
         | |- keeps_cache (if ?c then _ else _) => destruct c
         | |- keeps_cache (match ?x with _ => _ end) => destruct x
         | |- pure _ => solve [auto with frame]
         | |- keeps_cache _ => solve [auto with frame]
         | |- keeps_cache _ => apply keeps_cache_pure
         end.

Lemma pure_Node_init `{!Env} kwargs : pure (Node.__init__ kwargs).
Proof. unfold Node.__init__. frame. Qed.

Lemma pure_convert_with_links `{!Env} rpc_node : pure (Node.convert_with_links rpc_node).
Proof. unfold Node.convert_with_links. apply pure_bind; [apply pure_Node_init|done]. Qed.

Lemma pure__check_names_acceptable `{!Env} names msg :
  pure (NodesController._check_names_acceptable names msg).
Proof. unfold NodesController._check_names_acceptable. frame. Qed.

Lemma pure_validate `{!Env} p : pure (NodePatchType.validate p).
Proof. unfold NodePatchType.validate. frame. Qed.

Lemma pure_get `{!Env} node_ident : pure (NodeStatesController.get node_ident).
Proof. unfold NodeStatesController.get. frame. Qed.

#[local] Hint Resolve pure_Node_init pure_convert_with_links
  pure__check_names_acceptable pure_validate pure_get : frame.

(** ** Provisioning: what happens before anything is dispatched *)

Lemma VERBS_clean : ir_states.VERBS !!! "clean" = "clean".
Proof. reflexivity. Qed.
Lemma VERBS_inspect : ir_states.VERBS !!! "inspect" = "inspect".
Proof. reflexivity. Qed.
Lemma PROVISION_ACTION_STATES_eq :
  PROVISION_ACTION_STATES = ["manage"; "provide"; "abort"; "adopt"].
Proof. reflexivity. Qed.

(** The steps of [provision] up to the state machine, on a request that gets
    through them. *)
Ltac provision_prelude target rpc_node Hreach Hverb Hmaint :=
  let Hauth := fresh "Hauth" in
  let Hnode := fresh "Hnode" in
  let Htopic := fresh "Htopic" in
  destruct Hreach as (Hauth & Hnode & Htopic);
  unfold NodeStatesController.provision;
  rewrite (bind_Return _ _ _ _ _ (authorize_ok _ _ Hauth));
  rewrite (bind_Return _ _ _ _ _ (verb_ok _ _ Hverb));
  rewrite (bind_Return _ _ _ _ _ (rpc_node_found _ _ _ Hnode));
  rewrite (bind_Return _ _ _ _ _ (topic_ok _ _ _ Htopic));
  fold (refused_in_maintenance target rpc_node);
  rewrite Hmaint;
  rewrite (bind_Return _ _ _ _ _ (raise_if_false _ _)).

Lemma provision_not_actionable `{!Env} node_ident target configdrive clean_steps w
    rpc_node topic :
  reaches_node "baremetal:node:set_provision_state" node_ident w rpc_node topic →
  management_verb_allowed target = true →
  refused_in_maintenance target rpc_node = false →
  not_actionable rpc_node target →
  NodeStatesController.provision node_ident target configdrive clean_steps w =
    (Raise (not_actionable_answer target rpc_node), w).
Proof.
  intros Hreach Hverb Hmaint Hact. unfold refused_in_maintenance in Hmaint.
  destruct Hreach as (Hauth & Hnode & Htopic).
  unfold NodeStatesController.provision.
  rewrite (bind_Return _ _ _ _ _ (authorize_ok _ _ Hauth)).
  rewrite (bind_Return _ _ _ _ _ (verb_ok _ _ Hverb)).
  rewrite (bind_Return _ _ _ _ _ (rpc_node_found _ _ _ Hnode)).
  rewrite (bind_Return _ _ _ _ _ (topic_ok _ _ _ Htopic)).
  rewrite Hmaint, Hact. simpl negb. cbv iota.
  rewrite (bind_Return _ _ _ _ _ (raise_if_false _ _)).
  unfold not_actionable_answer.
  destruct (truthy (column rpc_node "reservation")); done.
Qed.

(** Either the request fails before the state machine lets it through, and
    the world is as it was, or it reaches the dispatch on a node it found. *)
Lemma provision_fails_or_passes `{!Env} node_ident target configdrive clean_steps w :
  (∃ e, NodeStatesController.provision node_ident target configdrive clean_steps w
        = (Raise e, w))
  ∨ (∃ rpc_node topic,
       reaches_node "baremetal:node:set_provision_state" node_ident w rpc_node topic
       ∧ management_verb_allowed target = true
       ∧ refused_in_maintenance target rpc_node = false
       ∧ is_actionable_event (column rpc_node "provision_state")
           (default target (ir_states.VERBS !! target)) = true).
Proof.
  unfold NodeStatesController.provision.
  destruct (policy_authorize "baremetal:node:set_provision_state") eqn:Hauth; last first.
  { left. eexists. apply bind_Raise. unfold authorize. rewrite Hauth. reflexivity. }
  rewrite (bind_Return _ _ _ _ _ (authorize_ok _ _ Hauth)).
  destruct (management_verb_allowed target) eqn:Hverb; last first.
  { left. eexists. apply bind_Raise. unfold check_allow_management_verbs.
    rewrite Hverb. reflexivity. }
  rewrite (bind_Return _ _ _ _ _ (verb_ok _ _ Hverb)).
  destruct (lookup_rpc_node (db w) node_ident) as [rpc_node|e] eqn:Hnode; last first.
  { left. eexists. apply bind_Raise. unfold get_rpc_node. rewrite Hnode. reflexivity. }
  rewrite (bind_Return _ _ _ _ _ (rpc_node_found _ _ _ Hnode)).
  destruct (hash_ring_owner (text_of (column rpc_node "driver")) (column rpc_node "uuid"))
    as [topic|] eqn:Htopic; last first.
  { left. eexists. apply bind_Raise. unfold get_topic_for. rewrite Htopic. reflexivity. }
  rewrite (bind_Return _ _ _ _ _ (topic_ok _ _ _ Htopic)).
  fold (refused_in_maintenance target rpc_node).
  destruct (refused_in_maintenance target rpc_node) eqn:Hmaint.
  { left. eexists. apply bind_Raise. reflexivity. }
  rewrite (bind_Return _ _ _ _ _ (raise_if_false _ _)).
  destruct (is_actionable_event (column rpc_node "provision_state")
              (default target (ir_states.VERBS !! target))) eqn:Hact.
  - right. exists rpc_node, topic. unfold reaches_node. auto.
  - left. simpl negb. cbv iota.
    destruct (truthy (column rpc_node "reservation"));
      eexists; apply bind_Raise; reflexivity.
Qed.

(** A request for an event that is not actionable never gets anywhere. *)
Lemma provision_not_actionable_fails `{!Env} node_ident target configdrive clean_steps w
    rpc_node :
  lookup_rpc_node (db w) node_ident = Return rpc_node →
  not_actionable rpc_node target →
  ∃ e, NodeStatesController.provision node_ident target configdrive clean_steps w
       = (Raise e, w).
Proof.
  intros Hnode Hact.
  destruct (provision_fails_or_passes node_ident target configdrive clean_steps w)
    as [?|(rpc_node' & topic & (_ & Hnode' & _) & _ & _ & Hyes)]; [done|].
  rewrite Hnode in Hnode'. injection Hnode' as <-.
  unfold not_actionable in Hact. by rewrite Hact in Hyes.
Qed.

(** C1 (amended).  A request to deploy a node that is deploying, from where
    deploy is not actionable, always fails and leaves the world as it was:
    nothing is sent to a conductor, so no lock is taken, and the table is
    untouched.  When the request is authorised, the node is served by a
    conductor, is not in maintenance and holds no reservation, the failure is
    InvalidStateRequested. *)
Theorem provision_deploy_while_deploying `{!Env} node_ident configdrive clean_steps w
    rpc_node :
  lookup_rpc_node (db w) node_ident = Return rpc_node →
  column rpc_node "provision_state" = JStr "deploying" →
  is_actionable_event (JStr "deploying") "deploy" = false →
  ∃ e, NodeStatesController.provision node_ident ir_states.ACTIVE configdrive clean_steps w
       = (Raise e, w)
     ∧ ∀ topic,
         reaches_node "baremetal:node:set_provision_state" node_ident w rpc_node topic →
         management_verb_allowed ir_states.ACTIVE = true →
         truthy (column rpc_node "maintenance") = false →
         truthy (column rpc_node "reservation") = false →
         e = ironic InvalidStateRequested
               [("action", JStr ir_states.ACTIVE); ("node", column rpc_node "uuid");
                ("state", JStr "deploying")].
Proof.
  intros Hnode Hstate Hact.
  assert (Hnot : not_actionable rpc_node ir_states.ACTIVE).
  { unfold not_actionable. by rewrite Hstate. }
  destruct (provision_not_actionable_fails node_ident ir_states.ACTIVE configdrive
              clean_steps w rpc_node Hnode Hnot) as [e He].
  exists e. split; [done|].
  intros topic Hreach Hverb Hmaint Hres.
  rewrite (provision_not_actionable _ _ _ _ _ rpc_node topic) in He; [|done..| |done].
  - unfold not_actionable_answer in He. rewrite Hres, Hstate in He. by injection He.
  - unfold refused_in_maintenance. by rewrite Hmaint, andb_false_r.
Qed.

Lemma provision_deploy_while_deploying_witness :
  ∃ e,
    NodeStatesController.provision (H := sample.env 21) sample.node_uuid "active" JNull JNull
      (sample.world (sample.node (JStr "deploying") (JStr "active") JNull false))
    = (Raise e, sample.world (sample.node (JStr "deploying") (JStr "active") JNull false))
    ∧ e = ironic InvalidStateRequested
            [("action", JStr "active");
             ("node", column (sample.node (JStr "deploying") (JStr "active") JNull false)
                             "uuid");
             ("state", JStr "deploying")].
Proof.
  destruct (provision_deploy_while_deploying (H := sample.env 21) sample.node_uuid
              JNull JNull
              (sample.world (sample.node (JStr "deploying") (JStr "active") JNull false))
              (sample.node (JStr "deploying") (JStr "active") JNull false))
    as (e & Hrun & Hwhich); [by_compute..|].
  exists e. split; [exact Hrun|].
  apply (Hwhich "ironic.conductor_manager.fake-mini"); by_compute.
Defined.

Lemma provision_deploy_while_deploying_counterexample :
  ¬ deploy_while_deploying_spec (H := sample.env 21) sample.node_uuid JNull JNull
      (sample.world (sample.node (JStr "deploying") (JStr "active") (JStr "fake-mini") false)).
Proof.
  intros Hspec.
  destruct (Hspec (sample.node (JStr "deploying") (JStr "active") (JStr "fake-mini") false))
    as (e & Hrun & Hcls); [by_compute..|].
  assert (Hreal :
    raised_class
      (NodeStatesController.provision (H := sample.env 21) sample.node_uuid ir_states.ACTIVE
         JNull JNull
         (sample.world (sample.node (JStr "deploying") (JStr "active") (JStr "fake-mini") false)))
    = Some NodeLocked) by by_compute.
  rewrite Hrun in Hreal. unfold raised_class in Hreal. cbn [fst] in Hreal.
  rewrite Hcls in Hreal. discriminate Hreal.
Qed.

(** C2 (amended).  A request for an event that is not actionable always
    fails and leaves the world as it was.  When the request is authorised, its
    verb is allowed at the API version, the node is served by a conductor, the
    request is not a deploy or rebuild of a node in maintenance and the node's
    reservation is not empty, the failure is NodeLocked, naming the node and
    the host that holds the reservation, with its own status 409. *)
Theorem provision_locked_node `{!Env} node_ident target configdrive clean_steps w
    rpc_node :
  lookup_rpc_node (db w) node_ident = Return rpc_node →
  not_actionable rpc_node target →
  truthy (column rpc_node "reservation") = true →
  ∃ e, NodeStatesController.provision node_ident target configdrive clean_steps w
       = (Raise e, w)
     ∧ ∀ topic,
         reaches_node "baremetal:node:set_provision_state" node_ident w rpc_node topic →
         management_verb_allowed target = true →
         refused_in_maintenance target rpc_node = false →
         e = IronicException NodeLocked http_client.CONFLICT
               [("node", column rpc_node "uuid");
                ("host", column rpc_node "reservation")].
Proof.
  intros Hnode Hact Hres.
  destruct (provision_not_actionable_fails node_ident target configdrive
              clean_steps w rpc_node Hnode Hact) as [e He].
  exists e. split; [done|].
  intros topic Hreach Hverb Hmaint.
  rewrite (provision_not_actionable _ _ _ _ _ rpc_node topic) in He by done.
  unfold not_actionable_answer in He. rewrite Hres in He. by injection He.
Qed.

Lemma provision_locked_node_witness :
  ∃ e,
    NodeStatesController.provision (H := sample.env 21) sample.node_uuid "active" JNull JNull
      (sample.world (sample.node (JStr "deploying") (JStr "active") (JStr "fake-mini") false))
    = (Raise e,
       sample.world (sample.node (JStr "deploying") (JStr "active") (JStr "fake-mini") false))
    ∧ e = IronicException NodeLocked 409
            [("node", column (sample.node (JStr "deploying") (JStr "active")
                                (JStr "fake-mini") false) "uuid");
             ("host", column (sample.node (JStr "deploying") (JStr "active")
                                (JStr "fake-mini") false) "reservation")].
Proof.
  destruct (provision_locked_node (H := sample.env 21) sample.node_uuid "active"
              JNull JNull
              (sample.world (sample.node (JStr "deploying") (JStr "active") (JStr "fake-mini") false))
              (sample.node (JStr "deploying") (JStr "active") (JStr "fake-mini") false))
    as (e & Hrun & Hwhich); [by_compute..|].
  exists e. split; [exact Hrun|].
  apply (Hwhich "ironic.conductor_manager.fake-mini"); by_compute.
Defined.

Lemma provision_locked_node_counterexample :
  ¬ locked_node_spec (H := sample.env 21) sample.node_uuid "active" JNull JNull
      (sample.world (sample.node (JStr "deploying") (JStr "active") (JStr "fake-mini") true)).
Proof.
  intros Hspec.
  specialize (Hspec (sample.node (JStr "deploying") (JStr "active") (JStr "fake-mini") true)).
  assert (Hrun := Hspec ltac:(by_compute) ltac:(by_compute) ltac:(by_compute)).
  assert (Hreal :
    raised_class
      (NodeStatesController.provision (H := sample.env 21) sample.node_uuid "active"
         JNull JNull
         (sample.world (sample.node (JStr "deploying") (JStr "active") (JStr "fake-mini") true)))
    = Some NodeInMaintenance) by by_compute.
  rewrite Hrun in Hreal. unfold raised_class in Hreal. cbn [fst exn_class ironic] in Hreal.
  discriminate Hreal.
Qed.

(** ** Provisioning: targets that are not recognised *)

Lemma not_recognized target :
  target ∉ recognized_targets →
  bool_decide (target ∈ [ir_states.ACTIVE; ir_states.REBUILD]) = false
  ∧ bool_decide (target = ir_states.ACTIVE) = false
  ∧ bool_decide (target = ir_states.REBUILD) = false
  ∧ bool_decide (target = ir_states.DELETED) = false
  ∧ bool_decide (target = ir_states.VERBS !!! "inspect") = false
  ∧ bool_decide (target = ir_states.VERBS !!! "clean") = false
  ∧ bool_decide (target ∈ PROVISION_ACTION_STATES) = false.
Proof.
  intros Hnot. rewrite VERBS_inspect, VERBS_clean, PROVISION_ACTION_STATES_eq.
  unfold ir_states.ACTIVE, ir_states.REBUILD, ir_states.DELETED.
  repeat split; apply bool_decide_eq_false; intros Hin; apply Hnot;
    unfold recognized_targets; revert Hin; rewrite ?elem_of_cons, ?elem_of_nil;
    tauto.
Qed.

Lemma provision_unrecognized_exact `{!Env} node_ident target configdrive clean_steps w
    rpc_node topic :
  target ∉ recognized_targets →
  reaches_node "baremetal:node:set_provision_state" node_ident w rpc_node topic →
  management_verb_allowed target = true →
  NodeStatesController.provision node_ident target configdrive clean_steps w =
    (Raise (unrecognized_answer target configdrive clean_steps rpc_node), w).
Proof.
  intros Hnot Hreach Hverb.
  destruct (not_recognized _ Hnot) as (Hin & Ha & Hr & Hd & Hi & Hc & Hp).
  assert (Hmaint : refused_in_maintenance target rpc_node = false).
  { unfold refused_in_maintenance. by rewrite Hin. }
  unfold unrecognized_answer.
  destruct (is_actionable_event (column rpc_node "provision_state")
              (default target (ir_states.VERBS !! target))) eqn:Hact.
  - provision_prelude target rpc_node Hreach Hverb Hmaint.
    rewrite Hact. simpl negb. cbv iota.
    rewrite (bind_Return _ _ w tt w) by reflexivity.
    rewrite Ha, Hr, Hd, Hi, Hc, Hp.
    assert (Hne : bool_decide (target ≠ ir_states.ACTIVE) = true).
    { apply bool_decide_eq_true. by apply bool_decide_eq_false in Ha. }
    assert (Hnc : bool_decide (target ≠ ir_states.VERBS !!! "clean") = true).
    { apply bool_decide_eq_true. by apply bool_decide_eq_false in Hc. }
    rewrite Hne, Hnc, !andb_true_r.
    destruct (truthy configdrive); [done|].
    rewrite (bind_Return _ _ _ _ _ (raise_if_false _ _)).
    destruct (truthy clean_steps); [done|].
    rewrite (bind_Return _ _ _ _ _ (raise_if_false _ _)).
    done.
  - simpl negb. cbv iota. by apply provision_not_actionable with (topic := topic).
Qed.

Lemma provision_unrecognized_fails `{!Env} node_ident target configdrive clean_steps w :
  target ∉ recognized_targets →
  ∃ e, NodeStatesController.provision node_ident target configdrive clean_steps w
       = (Raise e, w).
Proof.
  intros Hnot.
  destruct (provision_fails_or_passes node_ident target configdrive clean_steps w)
    as [?|(rpc_node & topic & Hreach & Hverb & _ & _)]; [done|].
  eexists. by eapply provision_unrecognized_exact.
Qed.

(** C3 (amended).  A request whose target is outside the recognised set
    always fails, synchronously, and leaves the world as it was: nothing is
    sent to a conductor.  When the request is authorised and the node is
    served by a conductor, the failure is InvalidStateRequested, except that
    it is NodeLocked when the event is not actionable and the node holds a
    reservation, and a 400 client-side error when the event is actionable and
    a config drive or clean steps came with the request. *)
Theorem provision_unrecognized_target `{!Env} node_ident target configdrive clean_steps w :
  target ∉ recognized_targets →
  ∃ e, NodeStatesController.provision node_ident target configdrive clean_steps w
       = (Raise e, w)
     ∧ ∀ rpc_node topic,
         reaches_node "baremetal:node:set_provision_state" node_ident w rpc_node topic →
         management_verb_allowed target = true →
         e = unrecognized_answer target configdrive clean_steps rpc_node.
Proof.
  intros Hnot.
  destruct (provision_unrecognized_fails node_ident target configdrive clean_steps w Hnot)
    as [e He].
  exists e. split; [done|].
  intros rpc_node topic Hreach Hverb.
  rewrite (provision_unrecognized_exact _ _ _ _ _ _ _ Hnot Hreach Hverb) in He.
  by inversion He.
Qed.

Lemma provision_unrecognized_target_witness :
  ∃ e, NodeStatesController.provision (H := sample.env 21) sample.node_uuid "frobnicate"
         JNull JNull (sample.world (sample.node (JStr "available") JNull JNull false))
       = (Raise e, sample.world (sample.node (JStr "available") JNull JNull false))
     ∧ e = unrecognized_answer (H := sample.env 21) "frobnicate" JNull JNull
             (sample.node (JStr "available") JNull JNull false).
Proof.
  destruct (provision_unrecognized_target (H := sample.env 21) sample.node_uuid "frobnicate"
              JNull JNull (sample.world (sample.node (JStr "available") JNull JNull false)))
    as (e & Hrun & Hwhich); [by_compute|].
  exists e. split; [exact Hrun|].
  apply (Hwhich (sample.node (JStr "available") JNull JNull false)
                "ironic.conductor_manager.fake-mini"); by_compute.
Defined.

Lemma provision_unrecognized_target_counterexample :
  ¬ unrecognized_target_spec (H := sample.env 21) sample.node_uuid "frobnicate" JNull JNull
      (sample.world (sample.node (JStr "deploying") (JStr "active") (JStr "fake-mini") false)).
Proof.
  intros Hspec. destruct Hspec as (e & w' & Hrun & Hcls & _); [by_compute|].
  assert (Hreal :
    raised_class
      (NodeStatesController.provision (H := sample.env 21) sample.node_uuid "frobnicate"
         JNull JNull
         (sample.world (sample.node (JStr "deploying") (JStr "active") (JStr "fake-mini") false)))
    = Some NodeLocked) by by_compute.
  rewrite Hrun in Hreal. unfold raised_class in Hreal. cbn [fst] in Hreal.
  rewrite Hcls in Hreal. discriminate Hreal.
Qed.

(** ** Provisioning: clean steps *)

Lemma clean_steps_invalid `{!Env} l s :
  s ∈ l → malformed_step s → valid _CLEAN_STEPS_SCHEMA (JList l) = false.
Proof.
  intros Hin (m & -> & Hbad).
  unfold _CLEAN_STEPS_SCHEMA. cbn [valid has_type andb].
  apply not_true_iff_false. intros Hall.
  rewrite forallb_forall in Hall.
  specialize (Hall (JDict m) (proj1 (list_elem_of_In _ _) Hin)).
  cbv beta iota in Hall. cbn [forallb andb orb] in Hall.
  rewrite !andb_true_iff in Hall.
  destruct Hall as (((Hi & Hs & _) & Hprops & _) & Hextra).
  apply bool_decide_eq_true in Hi, Hs, Hextra.
  destruct Hbad as [Hnone|[Hnone|[(v & Hv & Hout)|(k & Hk & Hout)]]].
  - rewrite Hnone in Hi. by destruct Hi.
  - rewrite Hnone in Hs. by destruct Hs.
  - rewrite Hv in Hprops.
    apply andb_true_iff in Hprops. destruct Hprops as [Henum _].
    by apply bool_decide_eq_true in Henum.
  - apply Hout. apply (Hextra k). by apply elem_of_dom.
Qed.

Lemma provision_clean_exact `{!Env} node_ident configdrive clean_steps w rpc_node topic :
  reaches_node "baremetal:node:set_provision_state" node_ident w rpc_node topic →
  management_verb_allowed "clean" = true →
  is_actionable_event (column rpc_node "provision_state") "clean" = true →
  truthy configdrive = false →
  (truthy clean_steps = false
   ∨ ∃ l s, clean_steps = JList l ∧ s ∈ l ∧ malformed_step s) →
  NodeStatesController.provision node_ident "clean" configdrive clean_steps w =
    (Raise (clean_steps_answer clean_steps), w).
Proof.
  intros Hreach Hverb Hact Hcd Hsteps.
  assert (Hmaint : refused_in_maintenance "clean" rpc_node = false) by done.
  provision_prelude "clean" rpc_node Hreach Hverb Hmaint.
  change (default "clean" (ir_states.VERBS !! "clean")) with "clean".
  rewrite Hact, Hcd. simpl negb. cbv iota.
  rewrite (bind_Return _ _ w tt w) by reflexivity.
  rewrite (bind_Return _ _ _ _ _ (raise_if_false _ _)).
  rewrite VERBS_clean.
  rewrite (bool_decide_eq_false_2 ("clean" ≠ "clean")) by (intros Hne; by apply Hne).
  rewrite andb_false_r.
  rewrite (bind_Return _ _ _ _ _ (raise_if_false _ _)).
  change (bool_decide ("clean" = ir_states.ACTIVE)) with false.
  change (bool_decide ("clean" = ir_states.REBUILD)) with false.
  change (bool_decide ("clean" = ir_states.DELETED)) with false.
  rewrite VERBS_inspect.
  change (bool_decide ("clean" = "inspect")) with false.
  change (bool_decide ("clean" = "clean")) with true.
  cbv iota. unfold clean_steps_answer. rewrite VERBS_clean.
  destruct Hsteps as [Hfalsy|(l & s & -> & Hin & Hbad)].
  - rewrite Hfalsy. reflexivity.
  - assert (Htruthy : truthy (JList l) = true).
    { destruct l; [by apply elem_of_nil in Hin|done]. }
    rewrite Htruthy. simpl negb.
    apply bind_Raise.
    rewrite (bind_Return _ _ _ _ _ (raise_if_false _ _)).
    apply bind_Raise. unfold _check_clean_steps.
    rewrite (clean_steps_invalid _ _ Hin Hbad). reflexivity.
Qed.

Lemma provision_misplaced_arguments_fail `{!Env} node_ident target configdrive clean_steps w
    rpc_node topic :
  reaches_node "baremetal:node:set_provision_state" node_ident w rpc_node topic →
  management_verb_allowed target = true →
  refused_in_maintenance target rpc_node = false →
  is_actionable_event (column rpc_node "provision_state")
    (default target (ir_states.VERBS !! target)) = true →
  (truthy configdrive && bool_decide (target ≠ ir_states.ACTIVE)) = true
  ∨ (truthy clean_steps && bool_decide (target ≠ ir_states.VERBS !!! "clean")) = true →
  ∃ e, NodeStatesController.provision node_ident target configdrive clean_steps w
       = (Raise e, w).
Proof.
  intros Hreach Hverb Hmaint Hact Hwrong.
  provision_prelude target rpc_node Hreach Hverb Hmaint.
  rewrite Hact. simpl negb. cbv iota.
  rewrite (bind_Return _ _ w tt w) by reflexivity.
  destruct (truthy configdrive && bool_decide (target ≠ ir_states.ACTIVE)) eqn:Hcd.
  { eexists. apply bind_Raise. reflexivity. }
  rewrite (bind_Return _ _ _ _ _ (raise_if_false _ _)).
  destruct Hwrong as [?|Hcs]; [done|]. rewrite Hcs.
  eexists. apply bind_Raise. reflexivity.
Qed.

(** C6 (amended).  A request with the target clean and no clean steps, or
    with a clean step that lacks 'interface' or 'step', names an interface
    outside the allowed set or carries a key other than 'interface', 'step'
    and 'args', and a request with clean steps and another target, always
    fails, synchronously, and leaves the world as it was: nothing is sent to a
    conductor.  With the target clean, when the request is authorised, the
    node is served by a conductor, clean is actionable from the node's state
    and no config drive came with the request, the failure is a 400
    client-side error for missing steps and InvalidParameterValue for
    malformed ones. *)
Theorem provision_clean_steps `{!Env} node_ident target configdrive clean_steps w :
  clean_steps_refused target clean_steps →
  ∃ e, NodeStatesController.provision node_ident target configdrive clean_steps w
       = (Raise e, w)
     ∧ ∀ rpc_node topic,
         target = "clean" →
         reaches_node "baremetal:node:set_provision_state" node_ident w rpc_node topic →
         management_verb_allowed "clean" = true →
         is_actionable_event (column rpc_node "provision_state") "clean" = true →
         truthy configdrive = false →
         e = clean_steps_answer clean_steps.
Proof.
  intros Hrefused.
  assert (Hfails : ∃ e, NodeStatesController.provision node_ident target configdrive
                          clean_steps w = (Raise e, w)).
  { destruct (provision_fails_or_passes node_ident target configdrive clean_steps w)
      as [?|(rpc_node & topic & Hreach & Hverb & Hmaint & Hact)]; [done|].
    destruct Hrefused as [[-> Hsteps]|[Hne Htruthy]].
    - destruct (truthy configdrive) eqn:Hcd.
      + eapply provision_misplaced_arguments_fail; eauto.
        left. by rewrite Hcd.
      + eexists. eapply provision_clean_exact; eauto.
    - eapply provision_misplaced_arguments_fail; eauto.
      right. rewrite Htruthy, VERBS_clean. by apply bool_decide_eq_true. }
  destruct Hfails as [e He]. exists e. split; [done|].
  intros rpc_node topic -> Hreach Hverb Hact Hcd.
  destruct Hrefused as [[_ Hsteps]|[Hne _]]; [|done].
  rewrite (provision_clean_exact _ _ _ _ _ _ Hreach Hverb Hact Hcd Hsteps) in He.
  by inversion He.
Qed.

Lemma provision_clean_steps_witness :
  ∃ e, NodeStatesController.provision (H := sample.env 21) sample.node_uuid "clean" JNull
         steps_without_interface
         (sample.world (sample.node (JStr "manageable") JNull JNull false))
       = (Raise e, sample.world (sample.node (JStr "manageable") JNull JNull false))
     ∧ e = ironic InvalidParameterValue
             [("message", pct "Invalid clean_steps: %s" [JStr "ValidationError"])].
Proof.
  destruct (provision_clean_steps (H := sample.env 21) sample.node_uuid "clean" JNull
              steps_without_interface
              (sample.world (sample.node (JStr "manageable") JNull JNull false)))
    as (e & Hrun & Hwhich).
  - left. split; [reflexivity|]. right.
    exists [JDict {[ "step" := JStr "erase_devices" ]}],
           (JDict {[ "step" := JStr "erase_devices" ]}).
    split; [reflexivity|]. split; [apply list_elem_of_here|].
    exists {[ "step" := JStr "erase_devices" ]}. split; [reflexivity|].
    left. by_compute.
  - exists e. split; [exact Hrun|].
    apply (Hwhich (sample.node (JStr "manageable") JNull JNull false)
                  "ironic.conductor_manager.fake-mini"); by_compute.
Defined.

Lemma provision_clean_steps_counterexample :
  ¬ malformed_clean_steps_spec (H := sample.env 21) sample.node_uuid JNull
      steps_without_interface
      (sample.world (sample.node (JStr "available") JNull JNull false)).
Proof.
  intros Hspec.
  destruct (Hspec [JDict {[ "step" := JStr "erase_devices" ]}]
                  (JDict {[ "step" := JStr "erase_devices" ]}))
    as (e & w' & Hrun & Hcls & _).
  - reflexivity.
  - apply list_elem_of_here.
  - exists {[ "step" := JStr "erase_devices" ]}. split; [reflexivity|].
    left. by_compute.
  - assert (Hreal :
      raised_class
        (NodeStatesController.provision (H := sample.env 21) sample.node_uuid "clean" JNull
           steps_without_interface
           (sample.world (sample.node (JStr "available") JNull JNull false)))
      = Some InvalidStateRequested) by by_compute.
    rewrite Hrun in Hreal. unfold raised_class in Hreal. cbn [fst] in Hreal.
    rewrite Hcls in Hreal. discriminate Hreal.
Qed.

(** ** Reading the states *)

Lemma foldl_insert_lookup (f : string → json) (l : list string) (m0 : obj) attr :
  foldl (λ (m : obj) a, <[a := f a]> m) m0 l !! attr
  = if bool_decide (attr ∈ l) then Some (f attr) else m0 !! attr.
Proof.
  revert m0. induction l as [|a l IH]; intros m0; [done|].
  cbn [foldl]. rewrite IH.
  destruct (decide (attr ∈ l)) as [Hin|Hin].
  - rewrite !bool_decide_eq_true_2; [done| |done]. by right.
  - rewrite (bool_decide_eq_false_2 _ Hin).
    destruct (decide (a = attr)) as [->|Hne].
    + rewrite lookup_insert_eq, bool_decide_eq_true_2; [done|]. by left.
    + rewrite lookup_insert_ne by done.
      rewrite bool_decide_eq_false_2; [done|].
      intros [->|?]%elem_of_cons; done.
Qed.

Lemma convert_lookup `{!Env} rpc_node :
  let states := NodeStates.convert rpc_node in
  (∀ attr, attr ∈ state_attrs → attr ≠ "provision_state" →
           states !! attr = Some (column rpc_node attr))
  ∧ states !! "provision_state" = Some (shown_provision_state rpc_node)
  ∧ (∀ attr, attr ∈ raid_attrs →
             states !! attr = if allow_raid_config then Some (column rpc_node attr) else None)
  ∧ (∀ attr, is_Some (states !! attr) → attr ∈ (state_attrs ++ raid_attrs)%list).
Proof.
  unfold NodeStates.convert, update_state_in_older_versions, shown_provision_state.
  cbv zeta. fold state_attrs. fold raid_attrs.
  set (attr_list := (state_attrs ++ (if allow_raid_config then raid_attrs else []))%list).
  set (M := foldl _ ∅ attr_list).
  assert (HM : ∀ attr, M !! attr
             = if bool_decide (attr ∈ attr_list) then Some (column rpc_node attr) else None).
  { intros attr. unfold M.
    rewrite (foldl_insert_lookup (column rpc_node) attr_list ∅ attr).
    by rewrite lookup_empty. }
  assert (Hstate : ∀ attr, attr ∈ state_attrs → M !! attr = Some (column rpc_node attr)).
  { intros attr Hin. rewrite HM, bool_decide_eq_true_2; [done|].
    unfold attr_list. apply elem_of_app. by left. }
  assert (Hps : "provision_state" ∈ state_attrs).
  { by_compute. }
  assert (Hraid_ne : ∀ attr, attr ∈ raid_attrs → (attr ∉ state_attrs) ∧ attr ≠ "provision_state").
  { intros attr Hin. unfold raid_attrs in Hin.
    apply elem_of_cons in Hin as [->|Hin]; [|apply elem_of_cons in Hin as [->|Hin]];
      [| |by apply elem_of_nil in Hin];
      (split; [by_compute|done]). }
  assert (Hcond :
            bool_decide (M !! "provision_state" = Some (JStr ir_states.AVAILABLE))
            = bool_decide (column rpc_node "provision_state" = JStr ir_states.AVAILABLE)).
  { rewrite (Hstate _ Hps). apply bool_decide_ext. split; [by intros [= ->]|by intros ->]. }
  rewrite Hcond.
  set (c := bool_decide (version_minor < versions.MINOR_2_AVAILABLE_STATE)%nat
            && bool_decide (column rpc_node "provision_state" = JStr ir_states.AVAILABLE)).
  assert (Hother : ∀ attr, attr ≠ "provision_state" →
             (if c then <["provision_state" := ir_states.NOSTATE]> M else M) !! attr = M !! attr).
  { intros attr Hne. destruct c; [by rewrite lookup_insert_ne|done]. }
  split_and!.
  - intros attr Hin Hne. rewrite Hother by done. by apply Hstate.
  - destruct c; [by rewrite lookup_insert_eq|by apply Hstate].
  - intros attr Hin. destruct (Hraid_ne _ Hin) as [Hout Hne].
    rewrite Hother, HM by done. unfold attr_list.
    destruct allow_raid_config.
    + rewrite bool_decide_eq_true_2; [done|]. apply elem_of_app. by right.
    + rewrite bool_decide_eq_false_2; [done|]. rewrite app_nil_r. done.
  - intros attr Hsome.
    destruct (decide (attr = "provision_state")) as [->|Hne].
    { apply elem_of_app. by left. }
    rewrite Hother, HM in Hsome by done.
    case_bool_decide as Hin; [|by destruct Hsome].
    unfold attr_list in Hin. apply elem_of_app in Hin as [Hin|Hin];
      apply elem_of_app; [by left|right].
    destruct allow_raid_config; [done|by apply elem_of_nil in Hin].
Qed.

(** C8 (amended).  Reading the states of a node the caller may read returns
    the stored value of every state attribute except the provision state,
    which is the stored one unless the client speaks an API version older
    than 1.2 and the node is available, when it is shown as None; the RAID
    attributes are present only from the API version that has them, and no
    other attribute is present.  The call never changes the world: no node is
    written, nothing is sent to a conductor. *)
Theorem get_states_readonly `{!Env} node_ident w rpc_node :
  policy_authorize "baremetal:node:get_states" = true →
  lookup_rpc_node (db w) node_ident = Return rpc_node →
  ∃ states,
    NodeStatesController.get node_ident w = (Return states, w)
    ∧ (∀ attr, attr ∈ state_attrs → attr ≠ "provision_state" →
               states !! attr = Some (column rpc_node attr))
    ∧ states !! "provision_state" = Some (shown_provision_state rpc_node)
    ∧ (∀ attr, attr ∈ raid_attrs →
               states !! attr
               = if allow_raid_config then Some (column rpc_node attr) else None)
    ∧ (∀ attr, is_Some (states !! attr) → attr ∈ (state_attrs ++ raid_attrs)%list)
    ∧ pure (NodeStatesController.get node_ident).
Proof.
  intros Hauth Hnode. exists (NodeStates.convert rpc_node).
  split.
  { unfold NodeStatesController.get.
    rewrite (bind_Return _ _ _ _ _ (authorize_ok _ _ Hauth)).
    by rewrite (bind_Return _ _ _ _ _ (rpc_node_found _ _ _ Hnode)). }
  destruct (convert_lookup rpc_node) as (H1 & H2 & H3 & H4).
  split_and!; [done..|apply pure_get].
Qed.

Lemma get_states_readonly_witness :
  ∃ states,
    NodeStatesController.get (H := sample.env 1) sample.node_uuid
      (sample.world (sample.node (JStr "available") JNull JNull false))
    = (Return states, sample.world (sample.node (JStr "available") JNull JNull false))
    ∧ states !! "power_state" = Some (JStr "power on")
    ∧ states !! "provision_state" = Some JNull
    ∧ states !! "raid_config" = None.
Proof.
  destruct (get_states_readonly (H := sample.env 1) sample.node_uuid
              (sample.world (sample.node (JStr "available") JNull JNull false))
              (sample.node (JStr "available") JNull JNull false))
    as (states & Hrun & Hattrs & Hstate & Hraid & _); [by_compute..|].
  exists states. split; [exact Hrun|]. split; [|split].
  - rewrite (Hattrs "power_state"); [by_compute|by_compute|discriminate].
  - rewrite Hstate. by_compute.
  - rewrite (Hraid "raid_config"); by_compute.
Defined.

Lemma get_states_readonly_counterexample :
  ¬ get_states_spec (H := sample.env 1) sample.node_uuid
      (sample.world (sample.node (JStr "available") JNull JNull false)).
Proof.
  intros Hspec.
  destruct (Hspec (sample.node (JStr "available") JNull JNull false))
    as (states & Hrun & Hattrs); [by_compute|].
  specialize (Hattrs "provision_state" ltac:(by_compute)).
  assert (Hreal :
    (NodeStatesController.get (H := sample.env 1) sample.node_uuid
       (sample.world (sample.node (JStr "available") JNull JNull false))).1
    = Return (NodeStates.convert (H := sample.env 1)
                (sample.node (JStr "available") JNull JNull false)))
    by by_compute.
  rewrite Hrun in Hreal. cbn [fst] in Hreal. injection Hreal as ->.
  assert (Hshown :
    NodeStates.convert (H := sample.env 1)
      (sample.node (JStr "available") JNull JNull false) !! "provision_state"
    = Some JNull) by by_compute.
  rewrite Hshown in Hattrs.
  assert (Hstored :
    column (sample.node (JStr "available") JNull JNull false) "provision_state"
    = JStr "available") by by_compute.
  rewrite Hstored in Hattrs. discriminate Hattrs.
Qed.

(** ** The cache of vendor methods *)

Lemma keeps_cache_provision `{!Env} node_ident target configdrive clean_steps :
  keeps_cache (NodeStatesController.provision node_ident target configdrive clean_steps).
Proof. unfold NodeStatesController.provision. frame. Qed.

Lemma keeps_cache_post `{!Env} node : keeps_cache (NodesController.post node).
Proof. unfold NodesController.post. cbv zeta. frame. Qed.

Lemma keeps_cache_patch `{!Env} node_ident p : keeps_cache (NodesController.patch node_ident p).
Proof.
  unfold NodesController.patch, NodesController.patch_proceed,
    NodesController._check_driver_changed_and_console_enabled.
  cbv zeta. frame.
Qed.

Lemma keeps_cache_patch_request `{!Env} node_ident body :
  keeps_cache (NodesController.patch_request node_ident body).
Proof.
  unfold NodesController.patch_request. apply keeps_cache_bind.
  - apply keeps_cache_pure. frame.
  - intros p. apply keeps_cache_patch.
Qed.

Lemma keeps_cache_delete `{!Env} node_ident : keeps_cache (NodesController.delete node_ident).
Proof. unfold NodesController.delete. frame. Qed.

Lemma methods_cached `{!Env} node_ident w rpc_node ret :
  policy_authorize "baremetal:node:vendor_passthru" = true →
  lookup_rpc_node (db w) node_ident = Return rpc_node →
  _VENDOR_METHODS w !! text_of (column rpc_node "driver") = Some ret →
  NodeVendorPassthruController.methods node_ident w = (Return ret, w).
Proof.
  intros Hauth Hnode Hhit. unfold NodeVendorPassthruController.methods.
  rewrite (bind_Return _ _ _ _ _ (authorize_ok _ _ Hauth)).
  rewrite (bind_Return _ _ _ _ _ (rpc_node_found _ _ _ Hnode)).
  cbv zeta.
  rewrite (bind_Return _ _ w (_VENDOR_METHODS w) w) by reflexivity.
  rewrite bool_decide_eq_false_2; last first.
  { intros Hout. apply Hout. apply elem_of_dom. by exists ret. }
  rewrite (bind_Return _ _ w tt w) by reflexivity.
  rewrite (bind_Return _ _ w (_VENDOR_METHODS w) w) by reflexivity.
  unfold mret, api_ret. by rewrite (lookup_total_correct _ _ _ Hhit).
Qed.

Lemma methods_first `{!Env} node_ident w rpc_node ret w' :
  lookup_rpc_node (db w) node_ident = Return rpc_node →
  _VENDOR_METHODS w !! text_of (column rpc_node "driver") = None →
  NodeVendorPassthruController.methods node_ident w = (Return ret, w') →
  ∃ topic,
    hash_ring_owner (text_of (column rpc_node "driver")) (column rpc_node "uuid") = Some topic
    ∧ conductor (get_node_vendor_passthru_methods (column rpc_node "uuid") topic) = Return ret
    ∧ w' = set_vendor_methods <[text_of (column rpc_node "driver") := ret]>
             (log_rpc (get_node_vendor_passthru_methods (column rpc_node "uuid") topic) w).
Proof.
  intros Hnode Hmiss. unfold NodeVendorPassthruController.methods.
  intros Hrun.
  apply bind_inv_pure in Hrun as [(e & _ & [=] & _)|([] & _ & Hrun)]; [|apply pure_authorize].
  rewrite (bind_Return _ _ _ _ _ (rpc_node_found _ _ _ Hnode)) in Hrun.
  cbv zeta in Hrun.
  rewrite (bind_Return _ _ w (_VENDOR_METHODS w) w) in Hrun by reflexivity.
  rewrite bool_decide_eq_true_2 in Hrun; last first.
  { intros Hin. apply elem_of_dom in Hin as [v Hv]. by rewrite Hmiss in Hv. }
  unfold get_topic_for in Hrun.
  destruct (hash_ring_owner _ _) as [topic|] eqn:Htopic; [|by inversion Hrun].
  exists topic. split; [done|].
  unfold mbind, api_bind, mret, api_ret, rpc, modify, gets in Hrun.
  simpl in Hrun.
  destruct (conductor _) as [reply|e] eqn:Hreply; [|by inversion Hrun].
  simpl in Hrun. rewrite lookup_total_insert_eq in Hrun.
  inversion Hrun; subst. done.
Qed.

Lemma keeps_cache_methods `{!Env} node_ident :
  keeps_cache (NodeVendorPassthruController.methods node_ident).
Proof.
  unfold NodeVendorPassthruController.methods. cbv zeta.
  apply keeps_cache_bind; [frame|intros _].
  apply keeps_cache_bind; [frame|intros rpc_node].
  intros w d v Hd.
  unfold mbind, api_bind, gets, get_topic_for, rpc, modify, mret, api_ret.
  cbn [fst snd].
  case_bool_decide as Hmiss; [|done].
  destruct (hash_ring_owner _ _); [|done].
  cbn. destruct (conductor _); [|done].
  cbn. rewrite lookup_insert_ne; [done|].
  intros <-. apply Hmiss. apply elem_of_dom. by exists v.
Qed.

Lemma serve_keeps_cache `{!Env} r w d v :
  _VENDOR_METHODS w !! d = Some v → _VENDOR_METHODS (serve r w) !! d = Some v.
Proof.
  destruct r; cbn [serve].
  - apply keeps_cache_pure, pure_get.
  - apply keeps_cache_provision.
  - apply keeps_cache_methods.
  - apply keeps_cache_post.
  - apply keeps_cache_patch_request.
  - apply keeps_cache_delete.
Qed.

Lemma serve_all_keeps_cache rs w d v :
  _VENDOR_METHODS w !! d = Some v → _VENDOR_METHODS (serve_all rs w) !! d = Some v.
Proof.
  revert w. induction rs as [|[E r] rs IH]; intros w Hd; [done|].
  cbn [serve_all]. apply IH. by apply serve_keeps_cache.
Qed.

(** C10.  The first request for the vendor methods of a node whose driver
    is not in the cache asks the conductor, once, and stores the reply under
    the driver's name.  After any sequence of further requests to this API
    process, a request for the vendor methods of any node of the same driver
    is answered with the stored reply and leaves the world as it is: no
    conductor is asked. *)
Theorem vendor_methods_cached_per_driver (E1 E2 : Env) node_ident1 node_ident2 w w1
    rpc_node1 rpc_node2 ret between :
  let driver := text_of (column rpc_node1 "driver") in
  let w2 := serve_all between w1 in
  lookup_rpc_node (Env := E1) (db w) node_ident1 = Return rpc_node1 →
  _VENDOR_METHODS w !! driver = None →
  NodeVendorPassthruController.methods (H := E1) node_ident1 w = (Return ret, w1) →
  policy_authorize (Env := E2) "baremetal:node:vendor_passthru" = true →
  lookup_rpc_node (Env := E2) (db w2) node_ident2 = Return rpc_node2 →
  text_of (column rpc_node2 "driver") = driver →
  (∃ topic,
      conductor (Env := E1)
        (get_node_vendor_passthru_methods (column rpc_node1 "uuid") topic) = Return ret
      ∧ rpc_log w1 = (rpc_log w
                      ++ [get_node_vendor_passthru_methods (column rpc_node1 "uuid") topic])%list
      ∧ _VENDOR_METHODS w1 = <[driver := ret]> (_VENDOR_METHODS w))
  ∧ NodeVendorPassthruController.methods (H := E2) node_ident2 w2 = (Return ret, w2).
Proof.
  intros driver w2 Hnode1 Hmiss Hfirst Hauth Hnode2 Hsame.
  destruct (methods_first (H := E1) _ _ _ _ _ Hnode1 Hmiss Hfirst)
    as (topic & _ & Hreply & ->).
  split.
  - exists topic. done.
  - apply (methods_cached (H := E2) _ _ rpc_node2); [done|done|].
    rewrite Hsame. apply serve_all_keeps_cache.
    cbn. apply lookup_insert_eq.
Qed.

Lemma vendor_methods_cached_per_driver_witness :
  let w := sample.world (sample.node (JStr "available") JNull JNull false) in
  let w1 := (NodeVendorPassthruController.methods (H := sample.env 21) sample.node_uuid w).2 in
  let between :=
    [(sample.deployment 21 sample.answers_after_upgrade,
      Provision sample.node_uuid "active" JNull JNull)] in
  NodeVendorPassthruController.methods
    (H := sample.deployment 21 sample.answers_after_upgrade) "database16-dc02"
    (serve_all between w1)
  = (Return sample.vendor_methods, serve_all between w1).
Proof.
  intros w w1 between.
  refine (proj2 (vendor_methods_cached_per_driver
                   (sample.env 21) (sample.deployment 21 sample.answers_after_upgrade)
                   sample.node_uuid "database16-dc02" w w1
                   (sample.node (JStr "available") JNull JNull false)
                   (sample.node (JStr "available") JNull JNull false)
                   sample.vendor_methods between _ _ _ _ _ _)); by_compute.
Defined.

(** ** Creating and deleting *)

Lemma post_no_conductor `{!Env} node w :
  passes_create_checks node →
  no_conductor_for (Node.attrs node) →
  NodesController.post node w =
    (Raise (no_valid_host (Node.attrs node)), w).
Proof.
  intros (Hauth & Hchassis & Hrc & Hni & Hvalid) Hnone.
  unfold NodesController.post.
  rewrite (bind_Return _ _ _ _ _ (authorize_ok _ _ Hauth)).
  rewrite Hchassis, (bind_Return _ _ _ _ _ (raise_if_false _ _)).
  rewrite Hrc, (bind_Return _ _ _ _ _ (raise_if_false _ _)).
  cbv zeta.
  rewrite Hni, (bind_Return _ _ _ _ _ (raise_if_false _ _)).
  rewrite (bind_Return _ _ w tt w); last first.
  { destruct (Node.getattr node "network_interface") as [v|]; [|done].
    by rewrite Hvalid. }
  apply bind_Raise. unfold recode, get_topic_for.
  set (node' := if negb _ then _ else node).
  assert (Hdriver : column (Node.attrs node') "driver" = column (Node.attrs node) "driver").
  { unfold node'. destruct (negb (truthy_attr _)); cbn [Node.attrs Node.assign]; [|done].
    unfold column. by rewrite lookup_insert_ne. }
  rewrite Hdriver, Hnone. reflexivity.
Qed.

Lemma delete_no_conductor `{!Env} node_ident w rpc_node :
  policy_authorize "baremetal:node:delete" = true →
  from_chassis = false →
  lookup_rpc_node (db w) node_ident = Return rpc_node →
  no_conductor_for rpc_node →
  NodesController.delete node_ident w =
    (Raise (no_valid_host rpc_node), w).
Proof.
  intros Hauth Hchassis Hnode Hnone.
  unfold NodesController.delete.
  rewrite (bind_Return _ _ _ _ _ (authorize_ok _ _ Hauth)).
  rewrite Hchassis, (bind_Return _ _ _ _ _ (raise_if_false _ _)).
  rewrite (bind_Return _ _ _ _ _ (rpc_node_found _ _ _ Hnode)).
  apply bind_Raise. unfold recode, get_topic_for. rewrite Hnone. reflexivity.
Qed.

Lemma post_no_conductor_fails `{!Env} node w :
  no_conductor_for (Node.attrs node) → ∃ e, NodesController.post node w = (Raise e, w).
Proof.
  intros Hnone.
  destruct (NodesController.post node w) as [r w'] eqn:Hrun.
  unfold NodesController.post in Hrun.
  apply bind_inv_pure in Hrun as [(e & _ & -> & ->)|(? & _ & Hrun)];
    [by eexists| |frame].
  apply bind_inv_pure in Hrun as [(e & _ & -> & ->)|(? & _ & Hrun)];
    [by eexists| |frame].
  apply bind_inv_pure in Hrun as [(e & _ & -> & ->)|(? & _ & Hrun)];
    [by eexists| |frame].
  cbv zeta in Hrun.
  apply bind_inv_pure in Hrun as [(e & _ & -> & ->)|(? & _ & Hrun)];
    [by eexists| |frame].
  apply bind_inv_pure in Hrun as [(e & _ & -> & ->)|(? & _ & Hrun)];
    [by eexists| |frame].
  set (node' := if negb _ then _ else node) in Hrun.
  apply bind_inv_pure in Hrun as [(e & _ & -> & ->)|(? & Htopic & _)];
    [by eexists| |frame].
  exfalso. unfold recode, get_topic_for in Htopic.
  assert (Hdriver : column (Node.attrs node') "driver" = column (Node.attrs node) "driver").
  { unfold node'. destruct (negb (truthy_attr _)); cbn [Node.attrs Node.assign]; [|done].
    unfold column. by rewrite lookup_insert_ne. }
  rewrite Hdriver, Hnone in Htopic. discriminate Htopic.
Qed.

Lemma delete_no_conductor_fails `{!Env} node_ident w rpc_node :
  lookup_rpc_node (db w) node_ident = Return rpc_node →
  no_conductor_for rpc_node →
  ∃ e, NodesController.delete node_ident w = (Raise e, w).
Proof.
  intros Hnode Hnone.
  destruct (NodesController.delete node_ident w) as [r w'] eqn:Hrun.
  unfold NodesController.delete in Hrun.
  apply bind_inv_pure in Hrun as [(e & _ & -> & ->)|(? & _ & Hrun)];
    [by eexists| |frame].
  apply bind_inv_pure in Hrun as [(e & _ & -> & ->)|(? & _ & Hrun)];
    [by eexists| |frame].
  rewrite (bind_Return _ _ _ _ _ (rpc_node_found _ _ _ Hnode)) in Hrun.
  apply bind_inv_pure in Hrun as [(e & _ & -> & ->)|(? & Htopic & _)];
    [by eexists| |frame].
  exfalso. unfold recode, get_topic_for in Htopic.
  rewrite Hnone in Htopic. discriminate Htopic.
Qed.

(** C7 (amended).  When no conductor in the hash ring serves the driver of
    the node, a create request and a delete request always fail and leave the
    world as it was: no node is created or destroyed, nothing is sent to a
    conductor.  When the request passes the checks that come before the hash
    ring is asked (authorisation, not under a chassis, and for a create the
    resource class and network interface), the failure is NoValidHost with
    the code 400 and the driver as its reason. *)
Theorem no_conductor_is_bad_request `{!Env} :
  (∀ node w,
     no_conductor_for (Node.attrs node) →
     ∃ e, NodesController.post node w = (Raise e, w)
          ∧ (passes_create_checks node → e = no_valid_host (Node.attrs node)))
  ∧ (∀ node_ident w rpc_node,
       lookup_rpc_node (db w) node_ident = Return rpc_node →
       no_conductor_for rpc_node →
       ∃ e, NodesController.delete node_ident w = (Raise e, w)
            ∧ (policy_authorize "baremetal:node:delete" = true →
               from_chassis = false →
               e = no_valid_host rpc_node)).
Proof.
  split.
  - intros node w Hnone.
    destruct (post_no_conductor_fails node w Hnone) as [e He].
    exists e. split; [done|]. intros Hchecks.
    rewrite (post_no_conductor _ _ Hchecks Hnone) in He. by inversion He.
  - intros node_ident w rpc_node Hnode Hnone.
    destruct (delete_no_conductor_fails node_ident w rpc_node Hnode Hnone) as [e He].
    exists e. split; [done|]. intros Hauth Hchassis.
    rewrite (delete_no_conductor _ _ _ Hauth Hchassis Hnode Hnone) in He.
    by inversion He.
Qed.

Lemma no_conductor_is_bad_request_witness :
  NodesController.post (H := sample.env 21)
    (sample.body {[ "driver" := JStr "pxe_ipmitool" ]}) sample.empty_world
  = (Raise (no_valid_host (Node.attrs (sample.body {[ "driver" := JStr "pxe_ipmitool" ]}))),
     sample.empty_world)
  ∧ NodesController.delete (H := sample.env 21) sample.node_uuid
      (sample.world (<["driver" := JStr "pxe_ipmitool"]>
                       (sample.node (JStr "available") JNull JNull false)))
    = (Raise (no_valid_host (<["driver" := JStr "pxe_ipmitool"]>
                               (sample.node (JStr "available") JNull JNull false))),
       sample.world (<["driver" := JStr "pxe_ipmitool"]>
                       (sample.node (JStr "available") JNull JNull false))).
Proof.
  split.
  - destruct (proj1 (no_conductor_is_bad_request (H := sample.env 21))
                (sample.body {[ "driver" := JStr "pxe_ipmitool" ]}) sample.empty_world)
      as (e & Hrun & Hwhich).
    + intros uuid. by_compute.
    + rewrite Hrun, Hwhich; [reflexivity|by_compute].
  - destruct (proj2 (no_conductor_is_bad_request (H := sample.env 21)) sample.node_uuid
                (sample.world (<["driver" := JStr "pxe_ipmitool"]>
                                 (sample.node (JStr "available") JNull JNull false)))
                (<["driver" := JStr "pxe_ipmitool"]>
                   (sample.node (JStr "available") JNull JNull false)))
      as (e & Hrun & Hwhich).
    + by_compute.
    + intros uuid. by_compute.
    + rewrite Hrun, Hwhich; [reflexivity|by_compute..].
Defined.

Lemma no_conductor_is_bad_request_counterexample :
  ¬ create_without_conductor_spec (H := sample.env 21)
      (sample.body {[ "driver" := JStr "pxe_ipmitool";
                      "network_interface" := JStr "bogus" ]})
      sample.empty_world.
Proof.
  intros Hspec. destruct Hspec as (e & Hrun & Hcls & _).
  { intros uuid. by_compute. }
  assert (Hreal :
    raised_class
      (NodesController.post (H := sample.env 21)
         (sample.body {[ "driver" := JStr "pxe_ipmitool";
                         "network_interface" := JStr "bogus" ]})
         sample.empty_world)
    = None) by by_compute.
  rewrite Hrun in Hreal. unfold raised_class in Hreal. cbn [fst] in Hreal.
  rewrite Hcls in Hreal. discriminate Hreal.
Qed.

Lemma getattr_plain (self : Node.t) k :
  k ≠ "chassis_uuid" → Node.getattr self k = Node.attrs self !! k.
Proof. intros Hne. unfold Node.getattr. by rewrite bool_decide_eq_false_2. Qed.

Lemma as_dict_lookup (self : Node.t) k :
  k ∈ Node.fields self → Node.as_dict self !! k = Node.getattr self k.
Proof.
  unfold Node.as_dict. generalize (Node.fields self). intros l Hin.
  enough (Hall : (list_to_map (omap (λ k, (k,.) <$> Node.getattr self k) l) : obj) !! k
                 = if bool_decide (k ∈ l) then Node.getattr self k else None).
  { by rewrite Hall, bool_decide_eq_true_2. }
  clear Hin. induction l as [|a l IH]; [done|].
  cbn [omap list_omap].
  destruct (decide (a = k)) as [->|Hne].
  - rewrite (bool_decide_eq_true_2 (k ∈ k :: l)) by (by left).
    destruct (Node.getattr self k) as [v|] eqn:Hv; cbn.
    + by rewrite lookup_insert_eq.
    + rewrite IH. by case_bool_decide.
  - assert (Hsame : bool_decide (k ∈ a :: l) = bool_decide (k ∈ l)).
    { apply bool_decide_ext. rewrite elem_of_cons. split; [|by right].
      by intros [->|?]. }
    rewrite Hsame.
    destruct (Node.getattr self a) as [v|]; cbn; [rewrite lookup_insert_ne by done|];
      apply IH.
Qed.

(** C5.  A create request either fails and leaves the world as it was, or
    adds exactly one row to the node table, under a uuid that was free: the
    caller's uuid when one was supplied, a generated one otherwise.  The row's
    provision state is the configured initial state, whatever state the
    caller supplied. *)
Theorem post_sets_initial_state `{!Env} node w r w' :
  "provision_state" ∈ Node.fields node →
  "uuid" ∈ Node.fields node →
  NodesController.post node w = (r, w') →
  (w' = w ∧ is_Return r = false)
  ∨ ∃ values,
      db w !! text_of (uuid_of_created node) = None
      ∧ db w' = <[text_of (uuid_of_created node) := values]> (db w)
      ∧ values !! "provision_state" = Some initial_node_provision_state
      ∧ values !! "uuid" = Some (uuid_of_created node).
Proof.
  intros Hps Huuid Hrun. unfold NodesController.post in Hrun.
  apply bind_inv_pure in Hrun as [(e & _ & -> & ->)|(? & _ & Hrun)];
    [by left| |frame].
  apply bind_inv_pure in Hrun as [(e & _ & -> & ->)|(? & _ & Hrun)];
    [by left| |frame].
  apply bind_inv_pure in Hrun as [(e & _ & -> & ->)|(? & _ & Hrun)];
    [by left| |frame].
  cbv zeta in Hrun.
  apply bind_inv_pure in Hrun as [(e & _ & -> & ->)|(? & _ & Hrun)];
    [by left| |frame].
  apply bind_inv_pure in Hrun as [(e & _ & -> & ->)|(? & _ & Hrun)];
    [by left| |frame].
  set (node' := if negb _ then _ else node) in Hrun.
  apply bind_inv_pure in Hrun as [(e & _ & -> & ->)|(? & _ & Hrun)];
    [by left| |frame].
  apply bind_inv_pure in Hrun as [(e & _ & -> & ->)|(? & _ & Hrun)];
    [by left| |frame].
  set (node'' := Node.assign node' _ _) in Hrun.
  assert (Hfields : Node.fields node'' = Node.fields node).
  { unfold node'', node'. by destruct (negb _). }
  assert (Hstate : Node.as_dict node'' !! "provision_state"
                   = Some initial_node_provision_state).
  { rewrite as_dict_lookup by (by rewrite Hfields).
    rewrite getattr_plain by done. unfold node''. cbn [Node.assign Node.attrs].
    by rewrite lookup_insert_eq. }
  assert (Hid : Node.as_dict node'' !! "uuid" = Some (uuid_of_created node)).
  { rewrite as_dict_lookup by (by rewrite Hfields).
    rewrite getattr_plain by done. unfold node''. cbn [Node.assign Node.attrs].
    rewrite lookup_insert_ne by done.
    unfold node', uuid_of_created. rewrite getattr_plain by done.
    destruct (Node.attrs node !! "uuid") as [v|] eqn:Hv; cbn [truthy_attr];
      [destruct (truthy v)|]; cbn [negb Node.assign Node.attrs default];
      by rewrite ?lookup_insert_eq. }
  apply bind_inv in Hrun as [(e & Hcreate & ->)|(new_node & w1 & Hcreate & Hrun)].
  - left. unfold objects_Node_create in Hcreate.
    repeat case_match; inversion Hcreate; by subst.
  - right. exists (Node.as_dict node'').
    unfold objects_Node_create in Hcreate.
    assert (Hkey : text_of (column (Node.as_dict node'') "uuid")
                   = text_of (uuid_of_created node)).
    { unfold column. by rewrite Hid. }
    rewrite Hkey in Hcreate.
    case_bool_decide as Htaken; [by inversion Hcreate|].
    destruct (_ && _); [by inversion Hcreate|].
    inversion Hcreate; subst new_node w1. clear Hcreate.
    apply bind_inv in Hrun as [(e & Hloc & ->)|([] & w2 & Hloc & Hrun)];
      [by inversion Hloc|].
    inversion Hloc; subst w2. clear Hloc.
    apply (pure_run _ _ _ _ (pure_convert_with_links _)) in Hrun. subst w'.
    split_and!; [|done..].
    destruct (db w !! _) eqn:Hfree; [|done]. exfalso. apply Htaken. by eexists.
Qed.

Lemma post_sets_initial_state_witness :
  ∃ values,
    db (NodesController.post (H := sample.env 21)
          (sample.body {[ "driver" := JStr "fake"; "provision_state" := JStr "active" ]})
          sample.empty_world).2
    = <["dcf1fbc5-93fc-4596-9395-b80572f6267b" := values]> ∅
    ∧ values !! "provision_state" = Some (JStr "enroll")
    ∧ values !! "uuid" = Some (JStr "dcf1fbc5-93fc-4596-9395-b80572f6267b").
Proof.
  destruct (NodesController.post (H := sample.env 21)
              (sample.body {[ "driver" := JStr "fake"; "provision_state" := JStr "active" ]})
              sample.empty_world) as [r w'] eqn:Hrun.
  destruct (post_sets_initial_state (H := sample.env 21)
              (sample.body {[ "driver" := JStr "fake"; "provision_state" := JStr "active" ]})
              sample.empty_world r w')
    as [[-> Hfailed]|(values & _ & Hdb & Hstate & Hid)]; [by_compute|by_compute|exact Hrun| |].
  - exfalso.
    assert (Hreal :
      is_Return (NodesController.post (H := sample.env 21)
                   (sample.body {[ "driver" := JStr "fake";
                                   "provision_state" := JStr "active" ]})
                   sample.empty_world).1 = true) by by_compute.
    rewrite Hrun in Hreal. cbn [fst] in Hreal. by rewrite Hfailed in Hreal.
  - exists values. cbn [snd]. split_and!.
    + rewrite Hdb. f_equal; by_compute.
    + rewrite Hstate. by_compute.
    + rewrite Hid. by_compute.
Defined.


(** ** Updating *)

Lemma patch_reaches_state_check `{!Env} node_ident p w rpc_node :
  passes_update_checks p →
  lookup_rpc_node (db w) node_ident = Return rpc_node →
  NodesController.patch node_ident p w =
    ((if releases_instance rpc_node p then mret tt
      else raise_if (truthy (column rpc_node "target_provision_state")
                     && bool_decide (column rpc_node "provision_state"
                                     ∉ UPDATE_ALLOWED_STATES))
             (transition_conflict node_ident));;
     NodesController.patch_proceed node_ident p rpc_node) w.
Proof.
  intros (Hauth & Hchassis & Hrc & Hni & Hvalid) Hnode.
  unfold NodesController.patch.
  rewrite (bind_Return _ _ _ _ _ (authorize_ok _ _ Hauth)).
  rewrite Hchassis, (bind_Return _ _ _ _ _ (raise_if_false _ _)).
  cbv zeta.
  rewrite Hrc, (bind_Return _ _ _ _ _ (raise_if_false _ _)).
  rewrite Hni, (bind_Return _ _ _ _ _ (raise_if_false _ _)).
  rewrite (bind_Return _ _ _ _ _ (for_each_passes _ _ _ _ Hvalid)).
  rewrite (bind_Return _ _ _ _ _ (rpc_node_found _ _ _ Hnode)).
  reflexivity.
Qed.

Lemma pure_patch_prefix `{!Env} node_ident p w r w' :
  NodesController.patch node_ident p w = (r, w') →
  (∃ e, r = Raise e ∧ w' = w)
  ∨ ∃ rpc_node,
      lookup_rpc_node (db w) node_ident = Return rpc_node
      ∧ (releases_instance rpc_node p
         || negb (truthy (column rpc_node "target_provision_state")
                  && bool_decide (column rpc_node "provision_state"
                                  ∉ UPDATE_ALLOWED_STATES))) = true
      ∧ NodesController.patch_proceed node_ident p rpc_node w = (r, w').
Proof.
  intros Hrun. unfold NodesController.patch in Hrun.
  apply bind_inv_pure in Hrun as [(e & _ & -> & ->)|(? & _ & Hrun)];
    [left; by eexists| |frame].
  apply bind_inv_pure in Hrun as [(e & _ & -> & ->)|(? & _ & Hrun)];
    [left; by eexists| |frame].
  cbv zeta in Hrun.
  apply bind_inv_pure in Hrun as [(e & _ & -> & ->)|(? & _ & Hrun)];
    [left; by eexists| |frame].
  apply bind_inv_pure in Hrun as [(e & _ & -> & ->)|(? & _ & Hrun)];
    [left; by eexists| |frame].
  apply bind_inv_pure in Hrun as [(e & _ & -> & ->)|(? & _ & Hrun)];
    [left; by eexists| |frame].
  apply bind_inv_pure in Hrun as [(e & _ & -> & ->)|(rpc_node & Hnode & Hrun)];
    [left; by eexists| |frame].
  apply bind_inv_pure in Hrun as [(e & _ & -> & ->)|(? & Hcheck & Hrun)];
    [left; by eexists| |frame].
  right. exists rpc_node. split_and!; [|clear Hrun|done].
  - unfold get_rpc_node in Hnode. by injection Hnode.
  - unfold releases_instance.
    destruct (truthy (column rpc_node "maintenance") && _); [done|].
    cbn [orb]. destruct (truthy (column rpc_node "target_provision_state") && _); [|done].
    by inversion Hcheck.
Qed.

Lemma validate_all `{!Env} body acc w r w' :
  fold_each body (λ acc p, p' ← NodePatchType.validate p; mret (acc ++ [p'])%list) acc w
  = (r, w') →
  w' = w
  ∧ ((r = Return (acc ++ body)%list
      ∧ Forall (λ o, top_level (path o) ∉ NodePatchType.internal_attrs) body)
     ∨ ((∃ e, r = Raise e)
        ∧ Exists (λ o, top_level (path o) ∈ NodePatchType.internal_attrs) body)).
Proof.
  revert acc. induction body as [|o body IH]; intros acc Hrun.
  - cbn in Hrun. injection Hrun as <- <-. split; [done|]. left.
    by rewrite app_nil_r.
  - cbn [fold_each] in Hrun. unfold NodePatchType.validate in Hrun.
    destruct (decide (top_level (path o) ∈ NodePatchType.internal_attrs)) as [Hin|Hout].
    + rewrite (bool_decide_eq_true_2 _ Hin) in Hrun.
      cbn in Hrun. injection Hrun as <- <-. split; [done|]. right.
      split; [by eexists|]. by left.
    + rewrite (bool_decide_eq_false_2 _ Hout) in Hrun.
      change (fold_each body
                (λ acc p, p' ← NodePatchType.validate p; mret (acc ++ [p'])%list)
                (acc ++ [o])%list w = (r, w')) in Hrun.
      destruct (IH _ Hrun) as [-> [[-> Hall]|[Hraise Hex]]]; (split; [done|]).
      * left. rewrite <- app_assoc. split; [done|]. by constructor.
      * right. split; [done|]. by right.
Qed.

Lemma patch_request_cases `{!Env} node_ident body w :
  (∃ e, NodesController.patch_request node_ident body w = (Raise e, w)
        ∧ ¬ no_internal_attribute body)
  ∨ (NodesController.patch_request node_ident body w = NodesController.patch node_ident body w
     ∧ no_internal_attribute body).
Proof.
  unfold NodesController.patch_request, no_internal_attribute.
  destruct (fold_each body
              (λ acc p, p' ← NodePatchType.validate p; mret (acc ++ [p'])%list) [] w)
    as [r w'] eqn:Hfold.
  destruct (validate_all _ _ _ _ _ Hfold) as [-> [[-> Hall]|[[e ->] Hex]]].
  - right. split; [|done]. by rewrite (bind_Return _ _ _ _ _ Hfold).
  - left. exists e. split; [by rewrite (bind_Raise _ _ _ _ _ Hfold)|].
    intros Hall. apply Exists_exists in Hex as (o & Ho & Hin).
    rewrite Forall_forall in Hall. by apply (Hall o Ho).
Qed.

(** C9 (amended).  A PATCH request on a node whose target provision state
    is set and whose provision state is outside the update-allowed set always
    fails and leaves the world as it was, unless the node is in maintenance
    and the patch is the single removal of /instance_uuid.  The failure is the
    409 conflict when no operation of the patch addresses an internal
    attribute (such a patch is refused when the body is validated) and the
    request passes the checks that come before the node is read
    (authorisation, not under a chassis, resource class and network interface
    of the patch); the excepted patch, under the same two conditions, goes
    on as a patch on a node outside a transition does. *)
Theorem patch_during_transition `{!Env} node_ident body w rpc_node :
  lookup_rpc_node (db w) node_ident = Return rpc_node →
  in_transition rpc_node →
  (releases_instance rpc_node body = false →
     ∃ e, NodesController.patch_request node_ident body w = (Raise e, w)
          ∧ (no_internal_attribute body → passes_update_checks body →
             e = transition_conflict node_ident))
  ∧ (releases_instance rpc_node body = true →
     no_internal_attribute body →
     passes_update_checks body →
     NodesController.patch_request node_ident body w
     = NodesController.patch_proceed node_ident body rpc_node w).
Proof.
  intros Hnode [Htarget Hstate].
  assert (Hcond : truthy (column rpc_node "target_provision_state")
                  && bool_decide (column rpc_node "provision_state"
                                  ∉ UPDATE_ALLOWED_STATES) = true).
  { rewrite Htarget. by apply bool_decide_eq_true. }
  split.
  - intros Hnot.
    destruct (patch_request_cases node_ident body w) as [(e & Hrun & Hinternal)|[Hrun _]].
    { exists e. split; [done|]. by intros Hnone. }
    rewrite Hrun.
    assert (Hexact : passes_update_checks body →
                     NodesController.patch node_ident body w
                     = (Raise (transition_conflict node_ident), w)).
    { intros Hchecks. rewrite (patch_reaches_state_check _ _ _ _ Hchecks Hnode).
      by rewrite Hnot, Hcond. }
    destruct (NodesController.patch node_ident body w) as [r w'] eqn:Hhandler.
    destruct (pure_patch_prefix _ _ _ _ _ Hhandler)
      as [(e & -> & ->)|(rpc_node' & Hnode' & Hpass & _)].
    + exists e. split; [done|]. intros _ Hchecks.
      specialize (Hexact Hchecks). by injection Hexact.
    + rewrite Hnode in Hnode'. injection Hnode' as <-.
      by rewrite Hnot, Hcond in Hpass.
  - intros Hyes Hnone Hchecks.
    destruct (patch_request_cases node_ident body w) as [(e & _ & Hinternal)|[Hrun _]];
      [done|].
    rewrite Hrun, (patch_reaches_state_check _ _ _ _ Hchecks Hnode).
    by rewrite Hyes.
Qed.

Lemma patch_during_transition_witness :
  NodesController.patch_request (H := sample.env 21) sample.node_uuid
    [mkPatchOp "replace" "/extra" (Some (JDict ∅))]
    (sample.world (sample.node (JStr "deploying") (JStr "active") JNull false))
  = (Raise (transition_conflict sample.node_uuid),
     sample.world (sample.node (JStr "deploying") (JStr "active") JNull false)).
Proof.
  destruct (patch_during_transition (H := sample.env 21) sample.node_uuid
              [mkPatchOp "replace" "/extra" (Some (JDict ∅))]
              (sample.world (sample.node (JStr "deploying") (JStr "active") JNull false))
              (sample.node (JStr "deploying") (JStr "active") JNull false))
    as [Hrejected _]; [by_compute..|].
  destruct Hrejected as (e & Hrun & Hwhich); [by_compute|].
  rewrite Hrun, Hwhich; [reflexivity|by_compute..].
Defined.

Lemma patch_during_transition_counterexample :
  ¬ patch_in_transition_spec (H := sample.env 21) sample.node_uuid
      [mkPatchOp "replace" "/network_interface" (Some (JStr "bogus"))]
      (sample.world (sample.node (JStr "deploying") (JStr "active") JNull false)).
Proof.
  intros Hspec.
  destruct (Hspec (sample.node (JStr "deploying") (JStr "active") JNull false))
    as (e & Hrun & Hcode); [by_compute..|].
  assert (Hreal :
    match (NodesController.patch_request (H := sample.env 21) sample.node_uuid
             [mkPatchOp "replace" "/network_interface" (Some (JStr "bogus"))]
             (sample.world (sample.node (JStr "deploying") (JStr "active") JNull false))).1
    with Raise e => exn_code e | Return _ => 0 end = 400) by by_compute.
  rewrite Hrun in Hreal. cbn [fst] in Hreal. rewrite Hcode in Hreal. discriminate Hreal.
Qed.

(** ** The fields of the life cycle *)

Lemma lifecycle_fields_internal `{!Env} f :
  f ∈ lifecycle_fields → "/" ++ f ∈ NodePatchType.internal_attrs.
Proof.
  intros Hin. unfold NodePatchType.internal_attrs. cbv zeta.
  apply elem_of_app. right.
  unfold lifecycle_fields in Hin.
  repeat (apply elem_of_cons in Hin as [->|Hin]; [by_compute|]).
  by apply elem_of_nil in Hin.
Qed.

Lemma lifecycle_fields_plain f :
  f ∈ lifecycle_fields →
  f ∈ Node.class_attrs
  ∧ f ≠ "chassis_uuid" ∧ f ≠ "_chassis_uuid" ∧ f ≠ "chassis_id".
Proof.
  intros Hin. unfold lifecycle_fields in Hin.
  repeat (apply elem_of_cons in Hin as [->|Hin]; [split_and!; by_compute|]).
  by apply elem_of_nil in Hin.
Qed.

Lemma assign_lookup self k v f :
  Node.attrs (Node.assign self k v) !! f
  = if bool_decide (k = f) then v else Node.attrs self !! f.
Proof.
  unfold Node.assign. cbn [Node.attrs]. case_bool_decide as Hk.
  - subst. destruct v; [apply lookup_insert_eq|apply lookup_delete_eq].
  - destruct v; [by apply lookup_insert_ne|by apply lookup_delete_ne].
Qed.

Lemma setattr_lookup `{!Env} self k v w self' w' f :
  plain_attr f →
  Node.setattr self k v w = (Return self', w') →
  Node.attrs self' !! f = if bool_decide (k = f) then v else Node.attrs self !! f.
Proof.
  intros (_ & Hne1 & Hne2 & Hne3). unfold Node.setattr.
  case_bool_decide as Hk.
  - subst k. rewrite (bool_decide_eq_false_2 ("chassis_uuid" = f)) by done.
    unfold Node._set_chassis_uuid. intros Hrun.
    repeat case_match; inversion Hrun; subst;
      rewrite ?assign_lookup, ?bool_decide_eq_false_2 by done; done.
  - intros [= <- <-]. apply assign_lookup.
Qed.

Lemma init_fold_lookup `{!Env} (kwargs : obj) l self0 w self w' f :
  plain_attr f →
  fold_each l
    (λ self k,
       if Node.hasattr self k then
         Node.setattr (Node.mk (Node.attrs self) (Node.fields self ++ [k])) k (kwargs !! k)
       else mret self) self0 w = (Return self, w') →
  Node.attrs self !! f
  = if bool_decide (f ∈ l) then kwargs !! f else Node.attrs self0 !! f.
Proof.
  intros Hplain. revert self0 w.
  induction l as [|a l IH]; intros self0 w Hrun.
  - by injection Hrun as <- <-.
  - cbn [fold_each] in Hrun.
    apply bind_inv in Hrun as [(e & _ & [=])|(self1 & w1 & Hstep & Hrun)].
    rewrite (IH _ _ Hrun).
    assert (Hfirst : Node.attrs self1 !! f
                     = if bool_decide (a = f) then kwargs !! f else Node.attrs self0 !! f).
    { destruct (Node.hasattr self0 a) eqn:Hhas.
      - rewrite (setattr_lookup _ _ _ _ _ _ _ Hplain Hstep). cbn [Node.attrs].
        destruct (bool_decide (a = f)) eqn:Ha; [|done].
        apply bool_decide_eq_true in Ha. by subst.
      - injection Hstep as <- <-.
        destruct (decide (a = f)) as [->|Hna]; [|by rewrite bool_decide_eq_false_2].
        unfold Node.hasattr in Hhas. destruct Hplain as (Hcls & _).
        by rewrite (bool_decide_eq_true_2 _ Hcls) in Hhas. }
    rewrite Hfirst. destruct (decide (f ∈ l)) as [Hin|Hout].
    + rewrite !bool_decide_eq_true_2; [done|by right|done].
    + rewrite (bool_decide_eq_false_2 _ Hout).
      destruct (decide (a = f)) as [->|Hne].
      * by rewrite !bool_decide_eq_true_2 by (done || by left).
      * rewrite !bool_decide_eq_false_2; [done| |done].
        intros [->|?]%elem_of_cons; done.
Qed.

Lemma init_lookup `{!Env} kwargs w node w' f :
  plain_attr f →
  f ∈ objects_Node_fields →
  Node.__init__ kwargs w = (Return node, w') →
  Node.attrs node !! f = kwargs !! f.
Proof.
  intros Hplain Hin. unfold Node.__init__. cbv zeta. intros Hrun.
  apply bind_inv in Hrun as [(e & _ & [=])|(self & w1 & Hfold & Hlast)].
  rewrite (setattr_lookup _ _ _ _ _ _ _ Hplain Hlast). cbn [Node.attrs].
  destruct Hplain as (Hcls & Hne & Hrest).
  rewrite (bool_decide_eq_false_2 ("chassis_uuid" = f)) by done.
  rewrite (init_fold_lookup _ _ _ _ _ _ _ (conj Hcls (conj Hne Hrest)) Hfold).
  rewrite bool_decide_eq_true_2; [done|]. apply elem_of_app. by left.
Qed.

Lemma update_changed_fields_keeps `{!Env} node rpc_node f :
  plain_attr f →
  (f ∈ objects_Node_fields → Node.attrs node !! f = rpc_node !! f) →
  NodesController._update_changed_fields node rpc_node !! f = rpc_node !! f.
Proof.
  intros (Hcls & Hne & _) Hsame. unfold NodesController._update_changed_fields.
  revert Hsame. generalize objects_Node_fields. intros l Hsame.
  assert (Hinv : ∀ acc : obj, acc !! f = rpc_node !! f →
            foldl (λ (rpc_node0 : obj) field,
                     if Node.hasattr node field then
                       let patch_val := default JNull (Node.getattr node field) in
                       if bool_decide (column rpc_node0 field ≠ patch_val)
                       then <[field := patch_val]> rpc_node0 else rpc_node0
                     else rpc_node0) acc l !! f = rpc_node !! f);
    [|by apply Hinv].
  induction l as [|a l IH]; intros acc Hacc; [done|].
  cbn [foldl]. apply IH.
  { intros Hin. apply Hsame. by right. }
  destruct (Node.hasattr node a); [|done]. cbv zeta.
  case_bool_decide as Hdiff; [|done].
  destruct (decide (a = f)) as [->|Hna]; [|by rewrite lookup_insert_ne].
  exfalso. apply Hdiff. unfold column. rewrite Hacc, getattr_plain by done.
  rewrite Hsame; [done|by left].
Qed.

Lemma patch_proceed_inv `{!Env} node_ident p rpc_node w r w' :
  NodesController.patch_proceed node_ident p rpc_node w = (r, w') →
  w' = w
  ∨ ∃ patched node topic,
      apply_jsonpatch
        (<["chassis_uuid" := column rpc_node "chassis_id"]> (delete "chassis_id" rpc_node)) p
      = Return patched
      ∧ Node.__init__ patched w = (Return node, w)
      ∧ w' = log_rpc (update_node (NodesController._update_changed_fields node rpc_node) topic) w.
Proof.
  unfold NodesController.patch_proceed. cbv zeta. intros Hrun.
  apply bind_inv_pure in Hrun as [(e & _ & -> & ->)|(? & _ & Hrun)];
    [by left| |frame].
  apply bind_inv_pure in Hrun as [(e & _ & -> & ->)|(node & Hnode & Hrun)];
    [by left| |frame].
  apply bind_inv_pure in Hrun as [(e & _ & -> & ->)|(topic & _ & Hrun)];
    [by left| |frame].
  apply bind_inv_pure in Hrun as [(e & _ & -> & ->)|(? & _ & Hrun)];
    [by left| |unfold NodesController._check_driver_changed_and_console_enabled; frame].
  right.
  destruct (apply_jsonpatch _ p) as [patched|e] eqn:Hpatched;
    [|destruct e; by inversion Hnode].
  exists patched, node, topic. split_and!; [done..|].
  apply bind_inv in Hrun as [(e & Hrpc & ->)|(reply & w1 & Hrpc & Hrun)].
  - unfold rpc in Hrpc. by injection Hrpc as _ <-.
  - unfold rpc in Hrpc. injection Hrpc as _ <-.
    by apply (pure_run _ _ _ _ (pure_convert_with_links _)) in Hrun.
Qed.

(** C4.  Each life-cycle field is an internal attribute of the patch type.
    A PATCH request with an operation on an internal attribute is refused
    before anything else happens, and the world stays as it was.  No PATCH
    request writes the node table; a request sends at most one update to the
    conductor, and in the node it sends every life-cycle field has the stored
    value.  (Assumes of the JSON-patch library that a patch leaves alone the
    attributes none of its operations starts in.) *)
Theorem lifecycle_fields_read_only `{!Env} node_ident body w r w' :
  patch_frame →
  NodesController.patch_request node_ident body w = (r, w') →
  (∀ f, f ∈ lifecycle_fields → "/" ++ f ∈ NodePatchType.internal_attrs)
  ∧ ((∃ o, o ∈ body ∧ top_level (path o) ∈ NodePatchType.internal_attrs) →
     ∃ e, r = Raise e ∧ w' = w)
  ∧ db w' = db w
  ∧ (rpc_log w' = rpc_log w
     ∨ ∃ stored sent topic,
         lookup_rpc_node (db w) node_ident = Return stored
         ∧ rpc_log w' = (rpc_log w ++ [update_node sent topic])%list
         ∧ ∀ f, f ∈ lifecycle_fields → sent !! f = stored !! f).
Proof.
  intros Hframe Hrun. split; [apply @lifecycle_fields_internal|].
  unfold NodesController.patch_request in Hrun.
  apply bind_inv in Hrun as [(e & Hfold & ->)|(validated & w1 & Hfold & Hrun)].
  { apply validate_all in Hfold as [-> _]. split_and!; [by eexists|done|by left]. }
  apply validate_all in Hfold as [-> [[[= ->] Hall]|[[e [=]] _]]].
  cbn [app] in Hrun.
  split.
  { intros (o & Hin & Hinternal). rewrite Forall_forall in Hall.
    by destruct (Hall o Hin). }
  apply pure_patch_prefix in Hrun as [(e & -> & ->)|(rpc_node & Hnode & _ & Hrun)];
    [split; [done|by left]|].
  apply patch_proceed_inv in Hrun
    as [->|(patched & node & topic & Hpatched & Hinit & ->)];
    [split; [done|by left]|].
  split; [done|]. right.
  exists rpc_node, (NodesController._update_changed_fields node rpc_node), topic.
  split_and!; [done..|].
  intros f Hf.
  destruct (lifecycle_fields_plain f Hf) as (Hcls & Hne1 & Hne2 & Hne3).
  apply update_changed_fields_keeps; [done|].
  intros Hin. rewrite (init_lookup _ _ _ _ f (conj Hcls (conj Hne1 (conj Hne2 Hne3))) Hin Hinit).
  rewrite (Hframe _ _ _ f Hpatched).
  - rewrite lookup_insert_ne by done. by rewrite lookup_delete_ne.
  - intros o Ho Htop. rewrite Forall_forall in Hall.
    apply (Hall o Ho). rewrite Htop. by apply lifecycle_fields_internal.
Qed.

Lemma sample_patch_frame minor reply : patch_frame (H := sample.deployment minor reply).
Proof.
  intros doc patch doc' k. cbn [apply_jsonpatch sample.deployment].
  unfold sample.apply_top_level.
  enough (Hgen : ∀ acc,
            foldl (λ acc o,
                     match acc with
                     | Return d =>
                         match split (Ascii.ascii_of_nat 47) (path o) with
                         | [_; k] =>
                             if bool_decide (op o = "remove") then
                               if bool_decide (is_Some (d !! k)) then Return (delete k d)
                               else Raise (JsonPatchException
                                             (JStr "can't remove non-existent object"))
                             else Return (<[k := default JNull (value o)]> d)
                         | _ => Raise (JsonPatchException (JStr "unsupported path"))
                         end
                     | Raise e => Raise e
                     end) acc patch = Return doc' →
            (∀ o, o ∈ patch → top_level (path o) ≠ "/" ++ k) →
            ∃ d0, acc = Return d0 ∧ doc' !! k = d0 !! k).
  { intros Hrun Hpaths. destruct (Hgen _ Hrun Hpaths) as (d0 & [= <-] & Hk). done. }
  induction patch as [|o patch IH]; intros acc Hrun Hpaths.
  - cbn in Hrun. subst acc. by eexists.
  - cbn [foldl] in Hrun.
    destruct (IH _ Hrun) as (d1 & Hstep & Hk).
    { intros o' Ho'. apply Hpaths. by right. }
    destruct acc as [d0|e]; [|done]. exists d0. split; [done|]. rewrite Hk.
    assert (Hpath := Hpaths o ltac:(by left)). unfold top_level in Hpath.
    destruct (split _ (path o)) as [|s0 [|k' [|]]]; try done.
    cbn [nth] in Hpath.
    assert (Hne : k' ≠ k) by (by intros ->).
    repeat case_bool_decide; try discriminate Hstep; injection Hstep as <-;
      [by apply lookup_delete_ne|by apply lookup_insert_ne].
Qed.

Lemma lifecycle_fields_read_only_witness :
  ∃ e,
    NodesController.patch_request (H := sample.env 21) sample.node_uuid
      [mkPatchOp "replace" "/provision_state" (Some (JStr "active"))]
      (sample.world (sample.node (JStr "available") JNull JNull false))
    = (Raise e, sample.world (sample.node (JStr "available") JNull JNull false)).
Proof.
  destruct (NodesController.patch_request (H := sample.env 21) sample.node_uuid
              [mkPatchOp "replace" "/provision_state" (Some (JStr "active"))]
              (sample.world (sample.node (JStr "available") JNull JNull false)))
    as [r w'] eqn:Hrun.
  destruct (lifecycle_fields_read_only (H := sample.env 21) _ _ _ _ _
              (sample_patch_frame 21 sample.answers) Hrun)
    as (_ & Hrefused & _).
  destruct Hrefused as (e & -> & ->).
  - exists (mkPatchOp "replace" "/provision_state" (Some (JStr "active"))).
    split; [apply list_elem_of_here|by_compute].
  - by exists e.
Defined.


(** * More of the controllers *)

(** ** Clean steps that pass *)

Lemma valid_enum_only vs v :
  valid (Schema None None [] [] (Some vs) None true) v = bool_decide (v ∈ vs).
Proof. cbn. destruct v; cbn; by rewrite ?andb_true_r. Qed.

Lemma valid_step_name v :
  valid (Schema (Some TString) None [] [] None (Some 1) true) v = true
  ↔ ∃ s, v = JStr s ∧ s ≠ "".
Proof.
  destruct v; cbn; try (split; [done|by intros (? & ? & _)]).
  rewrite bool_decide_eq_true. split.
  - intros Hlen. eexists. split; [done|]. intros ->. cbn in Hlen. lia.
  - intros (s' & [= <-] & Hne). destruct s; [done|cbn; lia].
Qed.

Lemma valid_args v :
  valid (Schema (Some TObject) None [] [] None None true) v = true ↔ ∃ a, v = JDict a.
Proof.
  destruct v; cbn; try (split; [done|by intros (? & ?)]).
  split; [by eexists|done].
Qed.

Lemma valid_step `{!Env} step :
  valid (Schema (Some TObject) None ["interface"; "step"]
           [("interface",
              Schema None None [] [] (Some (JStr <$> CLEANING_INTERFACE_PRIORITY)) None true);
            ("step", Schema (Some TString) None [] [] None (Some 1) true);
            ("args", Schema (Some TObject) None [] [] None None true)]
           None None false) step = true
  ↔ well_formed_step step.
Proof.
  unfold well_formed_step.
  destruct step as [| | | | |m];
    try (split; [done|by intros (? & ? & _)]).
  change (valid _ (JDict m)) with
    (true && true
     && (bool_decide (is_Some (m !! "interface"))
         && (bool_decide (is_Some (m !! "step")) && true)
         && (match m !! "interface" with
             | Some v => valid (Schema None None [] []
                                  (Some (JStr <$> CLEANING_INTERFACE_PRIORITY)) None true) v
             | None => true
             end
             && (match m !! "step" with
                 | Some v => valid (Schema (Some TString) None [] [] None (Some 1) true) v
                 | None => true
                 end
                 && (match m !! "args" with
                     | Some v => valid (Schema (Some TObject) None [] [] None None true) v
                     | None => true
                     end && true)))
         && (false || bool_decide (∀ k, k ∈ dom m → k ∈ ["interface"; "step"; "args"])))).
  cbn [andb orb]. rewrite !andb_true_r, !andb_true_iff, !bool_decide_eq_true.
  split.
  - intros ((([vi Hi] & [vs Hs]) & Henum & Hname & Hargs) & Hextra).
    exists m. split; [done|].
    rewrite Hi, valid_enum_only, bool_decide_eq_true in Henum.
    rewrite Hs in Hname. apply valid_step_name in Hname as (s & -> & Hne).
    split_and!.
    + by exists vi.
    + by exists s.
    + intros v Hv. rewrite Hv in Hargs. by apply valid_args.
    + intros k Hk. apply Hextra. by apply elem_of_dom.
  - intros (m' & [= <-] & (vi & Hi & Henum) & (s & Hs & Hne) & Hargs & Hextra).
    split_and!.
    + by exists vi.
    + by eexists.
    + rewrite Hi, valid_enum_only. by apply bool_decide_eq_true.
    + rewrite Hs. apply valid_step_name. by exists s.
    + destruct (m !! "args") as [v|] eqn:Hv; [|done].
      apply valid_args. by apply Hargs.
    + intros k Hk. apply Hextra. by apply elem_of_dom.
Qed.

Lemma valid_clean_steps `{!Env} steps :
  valid _CLEAN_STEPS_SCHEMA steps = true
  ↔ ∃ l, steps = JList l ∧ Forall well_formed_step l.
Proof.
  unfold _CLEAN_STEPS_SCHEMA.
  destruct steps as [| | | |l|];
    try (split; [done|by intros (? & ? & _)]).
  cbn [valid has_type andb].
  rewrite forallb_forall.
  split.
  - intros Hall. exists l. split; [done|]. apply Forall_forall. intros s Hs.
    apply valid_step. apply Hall. by apply list_elem_of_In.
  - intros (l' & [= <-] & Hall) s Hs. rewrite Forall_forall in Hall.
    apply valid_step. apply Hall. by apply list_elem_of_In.
Qed.


(** ** How a provision request ends *)

Lemma rpc_run `{!Env} {B} c (f : json → api B) w :
  (rpc c ≫= f) w
  = match conductor c with
    | Return reply => f reply (log_rpc c w)
    | Raise e => (Raise e, log_rpc c w)
    end.
Proof. unfold mbind, api_bind, rpc. by destruct (conductor c). Qed.





(** ** Names, and lookups that fail *)




(** ** What the requests leave as it was *)

Section preserves.
Context (R : relation World) `{!Reflexive R, !Transitive R}.

Lemma preserves_pure {A} (m : api A) : pure m → preserves R m.
Proof. intros Hm w. by rewrite Hm. Qed.

Lemma preserves_bind {A B} (m : api A) (f : A → api B) :
  preserves R m → (∀ a, preserves R (f a)) → preserves R (m ≫= f).
Proof.
  intros Hm Hf w. unfold mbind, api_bind. specialize (Hm w).
  destruct (m w) as [[a|e] w1]; cbn in *; [|done].
  etrans; [done|apply Hf].
Qed.

Lemma preserves_recode {A} cls code (m : api A) :
  preserves R m → preserves R (recode cls code m).
Proof.
  intros Hm w. unfold recode. specialize (Hm w).
  by destruct (m w) as [[a|e] w1].
Qed.
End preserves.

Lemma same_table_rpc `{!Env} c : preserves same_table (rpc c).
Proof. by intros w. Qed.
Lemma same_table_location l : preserves same_table (modify (set_location l)).
Proof. by intros w. Qed.
Lemma same_table_vendor f : preserves same_table (modify (set_vendor_methods f)).
Proof. by intros w. Qed.

Lemma history_kept_rpc `{!Env} c : preserves history_kept (rpc c).
Proof. intros w. split; [done|]. cbn. by apply prefix_app_r. Qed.
Lemma history_kept_location l : preserves history_kept (modify (set_location l)).
Proof. by intros w. Qed.
Lemma history_kept_vendor f : preserves history_kept (modify (set_vendor_methods f)).
Proof. by intros w. Qed.
Lemma history_kept_create values : preserves history_kept (objects_Node_create values).
Proof.
  intros w. unfold objects_Node_create.
  case_bool_decide as Htaken; [done|]. destruct (_ && _); [done|].
  split; [|done]. cbn. apply insert_subseteq.
  destruct (db w !! _) eqn:Hrow; [|done]. exfalso. apply Htaken. by eexists.
Qed.

#[local] Hint Resolve same_table_rpc same_table_location same_table_vendor
  history_kept_rpc history_kept_location history_kept_vendor history_kept_create : frame.

(** Walks down a handler as [frame] does, for [preserves]. *)
Ltac preserved :=
  repeat match goal with
         | |- preserves _ (_ ≫= _) => apply preserves_bind; [apply _..| |intros ?]
         | |- preserves _ (recode _ _ _) => apply preserves_recode
         | |- preserves _ (if ?c then _ else _) => destruct c
         | |- preserves _ (match ?x with _ => _ end) => destruct x
         | |- preserves _ _ => solve [auto with frame]
         | |- preserves _ _ => apply preserves_pure; try apply _; solve [frame]
         end.

Lemma preserves_provision R `{!Reflexive R, !Transitive R} `{!Env}
    node_ident target configdrive clean_steps :
  (∀ c, preserves R (rpc c)) → (∀ l, preserves R (modify (set_location l))) →
  preserves R (NodeStatesController.provision node_ident target configdrive clean_steps).
Proof. intros Hrpc Hloc. unfold NodeStatesController.provision. preserved. Qed.

Lemma preserves_methods R `{!Reflexive R, !Transitive R} `{!Env} node_ident :
  (∀ c, preserves R (rpc c)) → (∀ f, preserves R (modify (set_vendor_methods f))) →
  preserves R (NodeVendorPassthruController.methods node_ident).
Proof.
  intros Hrpc Hvendor. unfold NodeVendorPassthruController.methods. cbv zeta. preserved.
Qed.

Lemma preserves_patch_request R `{!Reflexive R, !Transitive R} `{!Env} node_ident body :
  (∀ c, preserves R (rpc c)) →
  preserves R (NodesController.patch_request node_ident body).
Proof.
  intros Hrpc.
  unfold NodesController.patch_request, NodesController.patch,
    NodesController.patch_proceed, NodesController._check_driver_changed_and_console_enabled.
  cbv zeta. preserved.
Qed.

Lemma preserves_delete R `{!Reflexive R, !Transitive R} `{!Env} node_ident :
  (∀ c, preserves R (rpc c)) → preserves R (NodesController.delete node_ident).
Proof. intros Hrpc. unfold NodesController.delete. preserved. Qed.

Lemma history_kept_post `{!Env} node : preserves history_kept (NodesController.post node).
Proof. unfold NodesController.post. cbv zeta. preserved. Qed.



Lemma serve_keeps_history `{!Env} r w : history_kept w (serve r w).
Proof.
  destruct r; cbn [serve].
  - by rewrite pure_get.
  - apply (preserves_provision history_kept);
      [apply history_kept_rpc|apply history_kept_location].
  - apply (preserves_methods history_kept);
      [apply history_kept_rpc|apply history_kept_vendor].
  - apply history_kept_post.
  - apply (preserves_patch_request history_kept). apply history_kept_rpc.
  - apply (preserves_delete history_kept). apply history_kept_rpc.
Qed.


(** ** What the API shows of a node *)

Lemma unset_all_lookup (o : Node.t) ks f :
  Node.attrs (foldl (λ o k, Node.assign o k None) o ks) !! f
  = if bool_decide (f ∈ ks) then None else Node.attrs o !! f.
Proof.
  revert o. induction ks as [|k ks IH]; intros o; [done|].
  cbn [foldl]. rewrite IH, assign_lookup.
  destruct (decide (f ∈ ks)) as [Hin|Hout].
  - rewrite !bool_decide_eq_true_2; [done|by right|done].
  - rewrite (bool_decide_eq_false_2 _ Hout).
    destruct (decide (k = f)) as [->|Hne].
    + by rewrite !bool_decide_eq_true_2 by (done || by left).
    + rewrite !bool_decide_eq_false_2; [done| |done].
      intros [->|?]%elem_of_cons; done.
Qed.

Lemma unset_if_lookup (c : bool) ks (o : Node.t) f :
  Node.attrs (if c then foldl (λ o k, Node.assign o k None) o ks else o) !! f
  = if bool_decide (f ∈ (if c then ks else [])) then None else Node.attrs o !! f.
Proof.
  destruct c; [apply unset_all_lookup|].
  rewrite bool_decide_eq_false_2; [done|]. by intros ?%elem_of_nil.
Qed.

Lemma hidden_twice {A} (f : string) (ks1 ks2 : list string) (x : option A) :
  (if bool_decide (f ∈ ks2) then None
   else if bool_decide (f ∈ ks1) then None else x)
  = if bool_decide (f ∈ (ks1 ++ ks2)%list) then None else x.
Proof.
  destruct (decide (f ∈ ks2)) as [H2|H2], (decide (f ∈ ks1)) as [H1|H1];
    rewrite ?(bool_decide_eq_true_2 _ H1), ?(bool_decide_eq_true_2 _ H2),
      ?(bool_decide_eq_false_2 _ H1), ?(bool_decide_eq_false_2 _ H2).
  - rewrite bool_decide_eq_true_2; [done|]. apply elem_of_app. by left.
  - rewrite bool_decide_eq_true_2; [done|]. apply elem_of_app. by right.
  - rewrite bool_decide_eq_true_2; [done|]. apply elem_of_app. by left.
  - rewrite bool_decide_eq_false_2; [done|]. by intros [?|?]%elem_of_app.
Qed.

Lemma hide_fields_lookup `{!Env} (o : Node.t) f :
  Node.attrs (Node.hide_fields_in_newer_versions o) !! f
  = if bool_decide (f ∈ hidden_fields) then None else Node.attrs o !! f.
Proof.
  unfold Node.hide_fields_in_newer_versions, hidden_fields. cbv zeta.
  rewrite !unset_if_lookup, !hidden_twice.
  by destruct allow_node_logical_names, allow_resource_class.
Qed.

Lemma convert_links_lookup `{!Env} node url show_password show_states_links f :
  f ∉ ["ports"; "states"; "driver_info"; "chassis_id"; "links"] →
  Node.attrs (Node._convert_with_links node url show_password show_states_links) !! f
  = Node.attrs node !! f.
Proof.
  intros Hf. unfold Node._convert_with_links. cbv zeta.
  assert (Hne : ∀ k, k ∈ ["ports"; "states"; "driver_info"; "chassis_id"; "links"] →
                     bool_decide (k = f) = false).
  { intros k Hk. apply bool_decide_eq_false. by intros ->. }
  rewrite !assign_lookup, !Hne by by_compute.
  set (node1 := Node.assign node "ports" _).
  assert (H1 : Node.attrs node1 !! f = Node.attrs node !! f).
  { unfold node1. rewrite assign_lookup, Hne; [done|by_compute]. }
  set (node2 := if show_states_links then _ else node1).
  assert (H2 : Node.attrs node2 !! f = Node.attrs node !! f).
  { unfold node2. destruct show_states_links; [|done].
    rewrite assign_lookup, Hne; [done|by_compute]. }
  destruct (Node.getattr node2 "driver_info"); [|done].
  destruct (negb show_password); [|done].
  rewrite assign_lookup, Hne; [done|by_compute].
Qed.

Lemma convert_links_chassis_id `{!Env} node url show_password show_states_links :
  Node.attrs (Node._convert_with_links node url show_password show_states_links)
    !! "chassis_id" = None.
Proof.
  unfold Node._convert_with_links. cbv zeta.
  rewrite assign_lookup, bool_decide_eq_false_2 by done.
  by rewrite assign_lookup, bool_decide_eq_true_2.
Qed.

Lemma convert_links_driver_info `{!Env} node url show_password show_states_links :
  Node.attrs (Node._convert_with_links node url show_password show_states_links)
    !! "driver_info"
  = (λ v, if show_password then v else mask_dict_password v "******")
      <$> Node.attrs node !! "driver_info".
Proof.
  unfold Node._convert_with_links. cbv zeta.
  rewrite !assign_lookup, !(bool_decide_eq_false_2 (_ = "driver_info")) by done.
  set (node1 := Node.assign node "ports" _).
  set (node2 := if show_states_links then _ else node1).
  assert (H2 : Node.attrs node2 !! "driver_info" = Node.attrs node !! "driver_info").
  { unfold node2, node1. destruct show_states_links;
      by rewrite !assign_lookup, !bool_decide_eq_false_2 by done. }
  unfold Node.getattr. rewrite (bool_decide_eq_false_2 ("driver_info" = _)) by done.
  rewrite H2. destruct (Node.attrs node !! "driver_info") as [v0|] eqn:Hv0.
  - destruct show_password; simpl negb; cbv iota.
    + by rewrite H2.
    + by rewrite assign_lookup, bool_decide_eq_true_2.
  - by rewrite H2.
Qed.

Lemma convert_links_ports `{!Env} node url show_password show_states_links :
  is_Some (Node.attrs (Node._convert_with_links node url show_password show_states_links)
             !! "ports").
Proof.
  unfold Node._convert_with_links. cbv zeta.
  rewrite !assign_lookup, !(bool_decide_eq_false_2 (_ = "ports")) by done.
  set (node1 := Node.assign node "ports" _).
  assert (H1 : is_Some (Node.attrs node1 !! "ports")).
  { unfold node1. rewrite assign_lookup, bool_decide_eq_true_2 by done. by eexists. }
  set (node2 := if show_states_links then _ else node1).
  assert (H2 : is_Some (Node.attrs node2 !! "ports")).
  { unfold node2. destruct show_states_links; [|done].
    by rewrite assign_lookup, bool_decide_eq_false_2. }
  destruct (Node.getattr node2 "driver_info"); [|done].
  destruct (negb show_password); [|done].
  by rewrite assign_lookup, bool_decide_eq_false_2.
Qed.

(** After [__init__], only what the class declares is set, and the two
    attributes the chassis property writes. *)
Lemma setattr_declared `{!Env} self k v w self' w' :
  Node.hasattr self k = true →
  (∀ f, is_Some (Node.attrs self !! f) →
        f ∈ Node.class_attrs ∨ f = "_chassis_uuid" ∨ f = "chassis_id") →
  Node.setattr self k v w = (Return self', w') →
  ∀ f, is_Some (Node.attrs self' !! f) →
       f ∈ Node.class_attrs ∨ f = "_chassis_uuid" ∨ f = "chassis_id".
Proof.
  intros Hhas Hself. unfold Node.setattr. case_bool_decide as Hk.
  - unfold Node._set_chassis_uuid. intros Hrun f.
    repeat case_match; inversion Hrun; subst; rewrite ?assign_lookup;
      repeat case_bool_decide; subst; auto; by intros [? [=]].
  - intros [= <- <-] f. rewrite assign_lookup. case_bool_decide as Hf; [|by auto].
    subst f. intros _. unfold Node.hasattr in Hhas.
    apply orb_true_iff in Hhas as [Hcls%bool_decide_eq_true|Hset%bool_decide_eq_true];
      auto.
Qed.

Lemma init_declared `{!Env} kwargs w node w' f :
  Node.__init__ kwargs w = (Return node, w') →
  is_Some (Node.attrs node !! f) →
  f ∈ Node.class_attrs ∨ f = "_chassis_uuid" ∨ f = "chassis_id".
Proof.
  unfold Node.__init__. cbv zeta. intros Hrun.
  apply bind_inv in Hrun as [(e & _ & [=])|(self & w1 & Hfold & Hlast)].
  revert f. eapply setattr_declared; [|clear Hlast|exact Hlast].
  { unfold Node.hasattr. cbn [Node.attrs]. apply orb_true_iff. left.
    by_compute. }
  cbn [Node.attrs].
  assert (Hgen : ∀ l self0 w0,
    (∀ f, is_Some (Node.attrs self0 !! f) →
          f ∈ Node.class_attrs ∨ f = "_chassis_uuid" ∨ f = "chassis_id") →
    fold_each l
      (λ self k,
         if Node.hasattr self k then
           Node.setattr (Node.mk (Node.attrs self) (Node.fields self ++ [k])) k (kwargs !! k)
         else mret self) self0 w0 = (Return self, w1) →
    ∀ f, is_Some (Node.attrs self !! f) →
         f ∈ Node.class_attrs ∨ f = "_chassis_uuid" ∨ f = "chassis_id").
  { induction l as [|a l IH]; intros self0 w0 Hself0 Hrun.
    - by injection Hrun as <- <-.
    - cbn [fold_each] in Hrun.
      apply bind_inv in Hrun as [(e & _ & [=])|(self1 & w2 & Hstep & Hrun)].
      eapply IH; [|exact Hrun].
      destruct (Node.hasattr self0 a) eqn:Hhas.
      + eapply (setattr_declared (Node.mk (Node.attrs self0) _));
          [exact Hhas|exact Hself0|exact Hstep].
      + by injection Hstep as <- <-. }
  eapply Hgen; [|exact Hfold]. intros f. cbn. rewrite lookup_empty. by intros [? [=]].
Qed.

Lemma init_lookup_plain `{!Env} kwargs w node w' f :
  plain_attr f →
  Node.__init__ kwargs w = (Return node, w') →
  Node.attrs node !! f
  = if bool_decide (f ∈ objects_Node_fields) then kwargs !! f else None.
Proof.
  intros Hplain. unfold Node.__init__. cbv zeta. intros Hrun.
  apply bind_inv in Hrun as [(e & _ & [=])|(self & w1 & Hfold & Hlast)].
  rewrite (setattr_lookup _ _ _ _ _ _ _ Hplain Hlast). cbn [Node.attrs].
  pose proof Hplain as (Hcls & Hne & Hrest).
  rewrite (bool_decide_eq_false_2 ("chassis_uuid" = f)) by done.
  rewrite (init_fold_lookup _ _ _ _ _ _ _ Hplain Hfold). cbn [Node.attrs].
  rewrite lookup_empty.
  destruct (decide (f ∈ objects_Node_fields)) as [Hin|Hout].
  - rewrite !bool_decide_eq_true_2; [done|done|]. apply elem_of_app. by left.
  - rewrite !bool_decide_eq_false_2; [done|done|].
    intros [?|Hl]%elem_of_app; [done|]. apply elem_of_cons in Hl as [->|Hl]; [done|].
    by apply elem_of_nil in Hl.
Qed.

Lemma hidden_fields_known `{!Env} f :
  f ∈ hidden_fields →
  f ∈ ["driver_internal_info"; "name"; "inspection_finished_at"; "inspection_started_at";
       "clean_step"; "raid_config"; "target_raid_config"; "network_interface";
       "resource_class"].
Proof.
  unfold hidden_fields. rewrite !elem_of_app.
  assert (Hpick : ∀ (c : bool) (ks : list string),
            f ∈ (if c then ks else []) → f ∈ ks).
  { intros [] ks; [done|by intros ?%elem_of_nil]. }
  assert (Hpick' : ∀ (c : bool) (ks : list string),
            f ∈ (if c then [] else ks) → f ∈ ks).
  { intros [] ks; [by intros ?%elem_of_nil|done]. }
  intros Hf.
  repeat match type of Hf with
         | _ ∨ _ => destruct Hf as [Hf|Hf]
         end;
    match type of Hf with
    | _ ∈ (if _ then [] else _) => apply Hpick' in Hf
    | _ ∈ (if _ then _ else []) => apply Hpick in Hf
    end;
    revert Hf; rewrite !elem_of_cons, !elem_of_nil; tauto.
Qed.

Lemma hidden_fields_copied `{!Env} f :
  f ∈ hidden_fields →
  (f ∉ ["ports"; "states"; "driver_info"; "chassis_id"; "links"]) ∧ f ≠ "provision_state".
Proof.
  intros Hf%hidden_fields_known.
  repeat (apply elem_of_cons in Hf as [->|Hf]; [split; [by_compute|done]|]).
  by apply elem_of_nil in Hf.
Qed.

Lemma update_state_lookup `{!Env} (o : obj) f :
  f ≠ "provision_state" → update_state_in_older_versions o !! f = o !! f.
Proof.
  intros Hne. unfold update_state_in_older_versions.
  destruct (_ && _); [by rewrite lookup_insert_ne|done].
Qed.

Lemma convert_with_links_lookup `{!Env} rpc_node w node w' f :
  Node.convert_with_links rpc_node w = (Return node, w') →
  f ∉ ["ports"; "states"; "driver_info"; "chassis_id"; "links"] →
  f ≠ "provision_state" →
  ∃ node0,
    Node.__init__ rpc_node w = (Return node0, w)
    ∧ w' = w
    ∧ Node.attrs node !! f
      = if bool_decide (f ∈ hidden_fields) then None else Node.attrs node0 !! f.
Proof.
  unfold Node.convert_with_links. cbv zeta. intros Hrun Hf Hps.
  apply bind_inv_pure in Hrun as [(e & _ & [=] & _)|(node0 & Hinit & [= <- <-])];
    [|apply pure_Node_init].
  exists node0. split; [done|]. split; [done|].
  rewrite convert_links_lookup by done.
  rewrite hide_fields_lookup. cbn [Node.attrs].
  by rewrite update_state_lookup.
Qed.





(** ** What an update hands to the conductor *)

Lemma update_step_column `{!Env} (node : Node.t) (acc : obj) a f :
  column (if Node.hasattr node a then
            let patch_val := default JNull (Node.getattr node a) in
            if bool_decide (column acc a ≠ patch_val)
            then <[a := patch_val]> acc else acc
          else acc) f
  = if bool_decide (a = f) && Node.hasattr node a
    then default JNull (Node.getattr node a)
    else column acc f.
Proof.
  destruct (Node.hasattr node a); [|by rewrite andb_false_r]. cbv zeta.
  rewrite andb_true_r. case_bool_decide as Hdiff.
  - unfold column at 1. case_bool_decide as Haf.
    + subst. by rewrite lookup_insert_eq.
    + by rewrite lookup_insert_ne.
  - case_bool_decide as Haf; [|done]. subst.
    destruct (decide (column acc f = default JNull (Node.getattr node f))); [done|].
    by destruct Hdiff.
Qed.


Lemma update_changed_fields_untouched `{!Env} node rpc_node f :
  f ∉ objects_Node_fields →
  NodesController._update_changed_fields node rpc_node !! f = rpc_node !! f.
Proof.
  unfold NodesController._update_changed_fields.
  generalize objects_Node_fields. intros l. revert rpc_node.
  induction l as [|a l IH]; intros rpc_node Hout; [done|].
  cbn [foldl]. rewrite IH by (intros ?; apply Hout; by right).
  destruct (Node.hasattr node a); [|done]. cbv zeta.
  case_bool_decide; [|done]. rewrite lookup_insert_ne; [done|].
  intros ->. apply Hout. by left.
Qed.

Lemma app_singleton_neq {A} (l : list A) x : l ≠ (l ++ [x])%list.
Proof.
  intros Heq. apply (f_equal length) in Heq. rewrite length_app in Heq. cbn in Heq. lia.
Qed.

Lemma patch_proceed_sent `{!Env} node_ident p rpc_node w r w' :
  NodesController.patch_proceed node_ident p rpc_node w = (r, w') →
  w' = w
  ∨ ∃ node topic,
      let sent := NodesController._update_changed_fields node rpc_node in
      w' = log_rpc (update_node sent topic) w
      ∧ hash_ring_owner (text_of (column sent "driver")) (column sent "uuid") = Some topic
      ∧ (bool_decide ("driver" ∈ NodesController.obj_what_changed rpc_node sent)
         && truthy (column sent "console_enabled")) = false.
Proof.
  unfold NodesController.patch_proceed. cbv zeta. intros Hrun.
  apply bind_inv_pure in Hrun as [(e & _ & -> & ->)|(? & _ & Hrun)];
    [by left| |frame].
  apply bind_inv_pure in Hrun as [(e & _ & -> & ->)|(node & Hnode & Hrun)];
    [by left| |frame].
  apply bind_inv_pure in Hrun as [(e & _ & -> & ->)|(topic & Htopic & Hrun)];
    [by left| |frame].
  apply bind_inv_pure in Hrun as [(e & _ & -> & ->)|(? & Hcheck & Hrun)];
    [by left| |unfold NodesController._check_driver_changed_and_console_enabled; frame].
  right. exists node, topic. cbv zeta. split_and!.
  - apply bind_inv in Hrun as [(e & Hrpc & ->)|(reply & w1 & Hrpc & Hrun)].
    + unfold rpc in Hrpc. by injection Hrpc as _ <-.
    + unfold rpc in Hrpc. injection Hrpc as _ <-.
      by apply (pure_run _ _ _ _ (pure_convert_with_links _)) in Hrun.
  - unfold recode, get_topic_for in Htopic.
    destruct (hash_ring_owner _ _); [|discriminate Htopic].
    by injection Htopic as ->.
  - unfold NodesController._check_driver_changed_and_console_enabled in Hcheck.
    cbv zeta in Hcheck. by destruct (_ && _).
Qed.



(** ** Requests on a node: authorisation and ownership *)



Lemma no_topic `{!Env} node w :
  no_conductor_for node →
  get_topic_for node w = (Raise (ironic NoValidHost [("reason", column node "driver")]), w).
Proof. intros Hnone. unfold get_topic_for. by rewrite Hnone. Qed.



(** ** Power, RAID, console and maintenance *)







Lemma set_maintenance_run `{!Env} node_ident mode reason w rpc_node topic :
  lookup_rpc_node (db w) node_ident = Return rpc_node →
  hash_ring_owner (text_of (column rpc_node "driver")) (column rpc_node "uuid") = Some topic →
  NodeMaintenanceController._set_maintenance node_ident mode reason w
  = (match conductor (update_node (in_maintenance mode reason rpc_node) topic) with
     | Return _ => Return tt
     | Raise e => Raise e
     end,
     log_rpc (update_node (in_maintenance mode reason rpc_node) topic) w).
Proof.
  intros Hnode Htopic. unfold NodeMaintenanceController._set_maintenance.
  rewrite (bind_Return _ _ _ _ _ (rpc_node_found _ _ _ Hnode)). cbv zeta.
  fold (in_maintenance mode reason rpc_node).
  rewrite (bind_Return _ _ w topic w); last first.
  { unfold recode, get_topic_for, column, in_maintenance.
    rewrite !lookup_insert_ne by done.
    fold (column rpc_node "driver"). fold (column rpc_node "uuid"). by rewrite Htopic. }
  unfold mbind, api_bind, rpc. by destruct (conductor _).
Qed.


